(** * A shallow embedding of the SIGLENT SDS1072CML driver

    Source: [pymeasure/instruments/siglenttechnologies/siglent_sds1072cml.py].

    The driver is three Python classes: [VoltageChannel] (waveform
    descriptor and sample decoding), [TriggerChannel] (the trigger
    configuration read and the read-modify-write transaction) and
    [SDS1072CML] (status, readiness and [arm]).  Every method talks to the
    oscilloscope through the adapter of the instrument; here the adapter is
    an interface ([Adapter]), the driver object is an explicit state
    ([driver]) and a method is a computation in a state-and-exception
    monad ([M]).  Python floats are IEEE 754 binary64 numbers, modelled by
    Rocq's primitive floats. *)

From Stdlib Require Import ZArith Floats Ascii.
From Stdlib.Strings Require Import Byte.
From stdpp Require Import base option list strings gmap.

Local Open Scope string_scope.
Local Open Scope list_scope.

(** ** Python values, exceptions and results *)

(** The objects that the trigger dictionaries hold and that a caller passes
    as keyword arguments: [None], a [str] or a [float]. *)
Inductive value :=
  | VNone
  | VStr (s : string)
  | VFloat (f : float).

(** The exceptions the modelled code can raise. *)
Inductive exn :=
  | KeyError (key : string)
  | IndexError
  | ValueError
  | TypeError
  | StructError.

Inductive result (A : Type) :=
  | Ok (a : A)
  | Raise (e : exn).
Arguments Ok {A} a.
Arguments Raise {A} e.

(** [a == b] on values.  Floats compare as IEEE numbers (a NaN differs from
    itself), objects of different types are never equal. *)
Definition py_eq (a b : value) : bool :=
  match a, b with
  | VNone, VNone => true
  | VStr s, VStr t => bool_decide (s = t)
  | VFloat x, VFloat y => PrimFloat.eqb x y
  | _, _ => false
  end.

(** [a != b]. *)
Definition py_ne (a b : value) : bool := negb (py_eq a b).

(** ** The host interpreter

    What the code takes from the running Python and is not part of the
    repository: the size and byte order of a native C [long] (the [struct]
    formats of the driver carry no byte-order prefix, so they are read in
    native mode), and the builtins [float(s)], ["%.2e" % x] and [str(x)]
    on floats. *)
Class Python := {
  sizeof_long : nat;
  big_endian : bool;
  float_of_str : string → option float;
  format_2e : float → string;
  str_of_float : float → string
}.

(** [str(v)], which is what ["%s" % v] and [str.format] insert. *)
Definition py_str `{Python} (v : value) : string :=
  match v with
  | VNone => "None"
  | VStr s => s
  | VFloat f => str_of_float f
  end.

(** ** String operations used by the reply parsers *)

(** [s.split(sep, 1)]: the text before the first [sep] and, when there is
    one, the text after it. *)
Fixpoint split1 (sep : Ascii.ascii) (s : string) : string * option string :=
  match s with
  | EmptyString => (EmptyString, None)
  | String c s' =>
      if Ascii.eqb c sep then (EmptyString, Some s')
      else let (a, b) := split1 sep s' in (String c a, b)
  end.

(** [s.split(sep, 1)[0]] *)
Definition split1_first (sep : Ascii.ascii) (s : string) : string :=
  fst (split1 sep s).

(** [s.split(sep, 1)[-1]] *)
Definition split1_last (sep : Ascii.ascii) (s : string) : string :=
  match split1 sep s with
  | (_, Some rest) => rest
  | (whole, None) => whole
  end.

(** [s.split(sep, 1)[1]], an [IndexError] when [sep] does not occur. *)
Definition split1_second (sep : Ascii.ascii) (s : string) : result string :=
  match split1 sep s with
  | (_, Some rest) => Ok rest
  | (_, None) => Raise IndexError
  end.

(** [s.split(sep)] *)
Fixpoint split_all (sep : Ascii.ascii) (s : string) : list string :=
  match s with
  | EmptyString => [EmptyString]
  | String c s' =>
      if Ascii.eqb c sep then EmptyString :: split_all sep s'
      else match split_all sep s' with
           | [] => [String c EmptyString]
           | t :: ts => String c t :: ts
           end
  end.

(** [s[:-n]] *)
Definition drop_last (n : nat) (s : string) : string :=
  String.substring 0 (String.length s - n) s.

(** [l[i]] on a list, for [i >= 0]. *)
Definition py_index {A} (l : list A) (i : nat) : result A :=
  match l !! i with
  | Some x => Ok x
  | None => Raise IndexError
  end.

(** ** Binary decoding: [struct.unpack_from] in native mode

    The formats the driver uses are ["l"], ["f"], ["d"] and ["%db"], all
    without a byte-order character, so [struct] reads them with the size
    and byte order of the host: a C [long] ([sizeof_long] bytes), an IEEE
    binary32 [float], an IEEE binary64 [double] and signed chars.  A
    format of one kind of item has no padding. *)

Local Open Scope Z_scope.

Definition byte_val (b : byte) : Z := Z.of_N (Byte.to_N b).

(** The unsigned integer of a byte string, least significant byte first. *)
Fixpoint le_unsigned (bs : list byte) : Z :=
  match bs with
  | [] => 0
  | b :: rest => byte_val b + 256 * le_unsigned rest
  end.

(** The unsigned integer of a byte string in the byte order of the host. *)
Definition native_unsigned `{Python} (bs : list byte) : Z :=
  le_unsigned (if big_endian then rev bs else bs).

(** Two's complement reading of an unsigned [n]-byte integer. *)
Definition to_signed (n : nat) (u : Z) : Z :=
  if u <? 2 ^ (8 * Z.of_nat n - 1) then u else u - 2 ^ (8 * Z.of_nat n).

(** [float(z)] for a Python int [z] with [|z| < 2^63]. *)
Definition float_of_Z (z : Z) : float :=
  match z with
  | Z0 => PrimFloat.zero
  | Zpos _ => PrimFloat.of_uint63 (Uint63Axioms.of_Z z)
  | Zneg p => PrimFloat.opp (PrimFloat.of_uint63 (Uint63Axioms.of_Z (Zpos p)))
  end.

(** The Python float of an IEEE binary32 bit pattern (every binary32 number
    is a binary64 number, so the conversion is exact). *)
Definition float_of_bits32 (u : Z) : float :=
  let s := Z.testbit u 31 in
  let e := Z.land (Z.shiftr u 23) 255 in
  let m := Z.land u (2 ^ 23 - 1) in
  if e =? 255 then
    if m =? 0 then SF2Prim (S754_infinity s) else PrimFloat.nan
  else if e =? 0 then
    if m =? 0 then SF2Prim (S754_zero s)
    else SF2Prim (S754_finite s (Z.to_pos m) (-149))
  else SF2Prim (S754_finite s (Z.to_pos (m + 2 ^ 23)) (e - 150)).

(** The Python float of an IEEE binary64 bit pattern. *)
Definition float_of_bits64 (u : Z) : float :=
  let s := Z.testbit u 63 in
  let e := Z.land (Z.shiftr u 52) 2047 in
  let m := Z.land u (2 ^ 52 - 1) in
  if e =? 2047 then
    if m =? 0 then SF2Prim (S754_infinity s) else PrimFloat.nan
  else if e =? 0 then
    if m =? 0 then SF2Prim (S754_zero s)
    else SF2Prim (S754_finite s (Z.to_pos m) (-1074))
  else SF2Prim (S754_finite s (Z.to_pos (m + 2 ^ 52)) (e - 1075)).

(** The [size] bytes that [unpack_from(fmt, buffer, offset)] decodes, as
    CPython finds them: a negative offset counts from the end of the
    buffer, and a buffer with fewer than [size] bytes from the offset on is
    a [struct.error]. *)
Definition unpack_slice (size : Z) (buffer : list byte) (offset : Z)
  : result (list byte) :=
  let len := Z.of_nat (length buffer) in
  if offset <? 0 then
    if 0 <? offset + size then Raise StructError
    else if offset + len <? 0 then Raise StructError
    else Ok (take (Z.to_nat size) (drop (Z.to_nat (offset + len)) buffer))
  else
    if len - offset <? size then Raise StructError
    else Ok (take (Z.to_nat size) (drop (Z.to_nat offset) buffer)).

(** [struct.unpack_from("l", buffer, offset)] *)
Definition unpack_l `{Python} (buffer : list byte) (offset : Z) : result Z :=
  match unpack_slice (Z.of_nat sizeof_long) buffer offset with
  | Ok bs => Ok (to_signed sizeof_long (native_unsigned bs))
  | Raise e => Raise e
  end.

(** [struct.unpack_from("f", buffer, offset)] *)
Definition unpack_f `{Python} (buffer : list byte) (offset : Z) : result float :=
  match unpack_slice 4 buffer offset with
  | Ok bs => Ok (float_of_bits32 (native_unsigned bs))
  | Raise e => Raise e
  end.

(** [struct.unpack_from("d", buffer, offset)] *)
Definition unpack_d `{Python} (buffer : list byte) (offset : Z) : result float :=
  match unpack_slice 8 buffer offset with
  | Ok bs => Ok (float_of_bits64 (native_unsigned bs))
  | Raise e => Raise e
  end.

(** [struct.unpack_from("%db" % n, buffer, offset)]: [n] signed chars.  For
    a negative [n] the format string is ["-5b"] or the like, which [struct]
    refuses. *)
Definition unpack_b (n : Z) (buffer : list byte) (offset : Z) : result (list Z) :=
  if n <? 0 then Raise StructError
  else match unpack_slice n buffer offset with
       | Ok bs => Ok ((λ b, to_signed 1 (byte_val b)) <$> bs)
       | Raise e => Raise e
       end.

(** ** The adapter, the driver object and the monad of its methods *)

(** The connection to the oscilloscope: [write(command)], [read()] of a
    formatted reply and [read_bytes(count=-1, break_on_termchar=True)].
    [W] is the state of whatever is at the other end. *)
Class Adapter (W : Type) := {
  adapter_write : string → W → W;
  adapter_read : W → string * W;
  adapter_read_bytes : W → list byte * W
}.

(** What a method did on the connection, in order. *)
Inductive event :=
  | EvWrite (command : string)
  | EvRead
  | EvReadBytes.

(** Dictionaries are objects: a variable or an attribute holds the address
    of one, and the store maps addresses to contents. *)
Definition loc := nat.

(** The address of the dictionary that the class statement of
    [TriggerChannel] creates ([triggerConfDict = {}], line 149). *)
Definition TriggerChannel_triggerConfDict : loc := 0%nat.

(** The state of an [SDS1072CML] object and of its [trigger] channel:
    the adapter, the record of the traffic, the store of dictionaries, the
    [id] of the trigger channel and its instance attribute
    [triggerConfDict] (unset until [set_triggerConfig] assigns it; a read
    of an unset attribute falls back to the class attribute). *)
Record driver (W : Type) := Driver {
  adapter : W;
  log : list event;
  heap : gmap loc (gmap string value);
  trigger_id : value;
  trigger_triggerConfDict : option loc
}.
Arguments Driver {W} _ _ _ _ _.
Arguments adapter {W} _.
Arguments log {W} _.
Arguments heap {W} _.
Arguments trigger_id {W} _.
Arguments trigger_triggerConfDict {W} _.

(** The object as [SDS1072CML(adapter)] builds it: the class dictionary is
    empty and [trigger = Instrument.ChannelCreator(TriggerChannel, "")]
    gives the trigger channel the empty id (line 313). *)
Definition SDS1072CML_init {W} (w : W) : driver W :=
  Driver w [] {[ TriggerChannel_triggerConfDict := ∅ ]} (VStr "") None.

(** A method: it runs on the driver state, returns or raises, and leaves a
    state behind in both cases. *)
Definition M (W A : Type) : Type := driver W → result A * driver W.

#[global] Instance M_ret {W} : MRet (M W) := λ A a st, (Ok a, st).

#[global] Instance M_bind {W} : MBind (M W) := λ A B f m st,
  match m st with
  | (Ok a, st') => f a st'
  | (Raise e, st') => (Raise e, st')
  end.

Definition raise {W A} (e : exn) : M W A := λ st, (Raise e, st).

Definition lift {W A} (r : result A) : M W A := λ st, (r, st).

Definition gets {W A} (f : driver W → A) : M W A := λ st, (Ok (f st), st).

Definition modify {W} (f : driver W → driver W) : M W unit := λ st, (Ok tt, f st).

(** [for x in l: body(x)] *)
Fixpoint foreach {W A} (l : list A) (body : A → M W unit) : M W unit :=
  match l with
  | [] => mret tt
  | x :: rest => body x ;; foreach rest body
  end.

(** *** Command templates *)

(** [template % args] for a template whose only conversions are [%s] and
    arguments already turned into text by [str]. *)
Fixpoint py_percent (template : string) (args : list string) : string :=
  match template with
  | String "%" (String "s" rest) =>
      match args with
      | a :: args' => a +:+ py_percent rest args'
      | [] => "%s" +:+ py_percent rest []
      end
  | String c rest => String c (py_percent rest args)
  | EmptyString => EmptyString
  end.

(** Modelled from the spec: [Channel.insert_id] of the framework, which is
    not in the source file.  The spec has the channel id "substituted into
    templates" for the placeholder [{ch}]; every occurrence of the
    placeholder is replaced and the rest of the command is kept. *)
Fixpoint insert_id (ch : string) (command : string) : string :=
  match command with
  | String "{" (String "c" (String "h" (String "}" rest))) =>
      ch +:+ insert_id ch rest
  | String c rest => String c (insert_id ch rest)
  | EmptyString => EmptyString
  end.

(** *** The waveform descriptor *)

(** The dictionary that [get_desc] returns; its keys are fixed, so it is a
    record here. *)
Record descriptor := Descriptor {
  numDataPoints : Z;
  verticalGain : float;
  verticalOffset : float;
  horizInterval : float;
  horizOffset : float;
  descriptorOffset : Z
}.

(** *** The trigger dictionaries *)

(** [d.get(key)] *)
Definition dict_get (d : gmap string value) (key : string) : value :=
  default VNone (d !! key).

(** [d.update(other)]: the entries of [other] win. *)
Definition dict_update (d other : gmap string value) : gmap string value :=
  other ∪ d.

(** [a == b] on the contents of two dictionaries: as many entries, and
    every key of [a] is a key of [b] with an equal value. *)
Definition dict_contents_eq (a b : gmap string value) : bool :=
  bool_decide (size a = size b) &&
  forallb (λ kv, match b !! kv.1 with
                 | Some v => py_eq kv.2 v
                 | None => false
                 end) (map_to_list a).

(** [x == y] for two references to dictionaries.  CPython compares the
    values under each key with [PyObject_RichCompareBool], which answers
    true for one and the same object before it looks at [==]; a
    dictionary compared with itself is therefore always equal to itself,
    whatever it holds. *)
Definition dict_eq (h : gmap loc (gmap string value)) (x y : loc) : bool :=
  if decide (x = y) then true
  else dict_contents_eq (h !!! x) (h !!! y).

(** Keyword arguments: the keys in the order of the call, each once. *)
Fixpoint kwargs_get (kwargs : list (string * value)) (key : string) : option value :=
  match kwargs with
  | [] => None
  | (k, v) :: rest => if decide (k = key) then Some v else kwargs_get rest key
  end.

(** The keys of [setValues] in the order of the literal (lines 277-283). *)
Definition setValues_keys : list string :=
  ["setup"; "level"; "coupling"; "slope"; "mode"].

(** [setValues[key]]: the entries of the configuration that the command of
    the group [key] sets. *)
Definition setValues (key : string) : list string :=
  if decide (key = "setup") then ["source"; "type"; "hold_type"; "hold_value1"]
  else if decide (key = "level") then ["level"]
  else if decide (key = "coupling") then ["coupling"]
  else if decide (key = "slope") then ["slope"]
  else if decide (key = "mode") then ["mode"]
  else [].

(** [setCommands[key]] (lines 270-276). *)
Definition setCommands (key : string) : string :=
  if decide (key = "setup") then "TRSE %s,SR,{ch},HT,%s,HV,%s"
  else if decide (key = "level") then "{ch}:TRLV %s"
  else if decide (key = "coupling") then "{ch}:TRCP %s"
  else if decide (key = "slope") then "{ch}:TRSL %s"
  else if decide (key = "mode") then "TRMD %s"
  else "".

(** [setProcesses[key](dictIn)] (lines 259-269): the arguments of the
    command of the group.  ["%.2eV" % x] is a [TypeError] unless [x] is a
    number. *)
Definition setProcesses `{Python} (key : string) (dictIn : gmap string value)
  : result (list value) :=
  if decide (key = "setup") then
    Ok [dict_get dictIn "type"; dict_get dictIn "hold_type";
        dict_get dictIn "hold_value1"]
  else if decide (key = "level") then
    match dict_get dictIn "level" with
    | VFloat x => Ok [VStr (format_2e x +:+ "V")]
    | _ => Raise TypeError
    end
  else if decide (key = "coupling") then Ok [dict_get dictIn "coupling"]
  else if decide (key = "slope") then Ok [dict_get dictIn "slope"]
  else if decide (key = "mode") then Ok [dict_get dictIn "mode"]
  else Raise (KeyError key).

(** [[key for key in kwargs if triggerConfDict[key] != kwargs[key]]]
    (line 286), on the keys still to visit. *)
Fixpoint changed_keys (triggerConfDict : gmap string value)
    (kwargs : list (string * value)) (keys : list string) : result (list string) :=
  match keys with
  | [] => Ok []
  | key :: rest =>
      match triggerConfDict !! key with
      | None => Raise (KeyError key)
      | Some old =>
          match kwargs_get kwargs key with
          | None => Raise (KeyError key)
          | Some new =>
              match changed_keys triggerConfDict kwargs rest with
              | Ok l => Ok (if py_ne old new then key :: l else l)
              | Raise e => Raise e
              end
          end
      end
  end.

(** [[key for key in setValues if any([value in changedValues for value in
    setValues[key]])]] (lines 287-289). *)
Definition processToChange (changedValues : list string) : list string :=
  filter (λ key, existsb (λ value, bool_decide (value ∈ changedValues))
                         (setValues key) = true)
         setValues_keys.

(** *** The [get_process] functions of the properties *)

(** [trigger_setup]: [preprocess_reply] (line 183) drops the head of the
    reply up to the first space; [get_process] (lines 184-189) picks four
    of the comma-separated tokens. *)
Definition trigger_setup_preprocess_reply (v : string) : result string :=
  split1_second " " v.

Definition trigger_setup_get_process (v : list string) : result (gmap string value) :=
  match py_index v 0, py_index v 2, py_index v 4, py_index v 6 with
  | Ok type, Ok source, Ok hold_type, Ok hold_value1 =>
      Ok {[ "type" := VStr type; "source" := VStr source;
            "hold_type" := VStr hold_type; "hold_value1" := VStr hold_value1 ]}
  | _, _, _, _ => Raise IndexError
  end.

(** [trigger_level] (lines 199-202); [float] of a text that is not a number
    is a [ValueError]. *)
Definition trigger_level_get_process `{Python} (v : string) : result (gmap string value) :=
  match float_of_str (drop_last 2 (split1_last " " v)) with
  | Some level =>
      Ok {[ "source" := VStr (split1_first ":" v); "level" := VFloat level ]}
  | None => Raise ValueError
  end.

(** [trigger_slope] (lines 212-215) *)
Definition trigger_slope_get_process (v : string) : gmap string value :=
  {[ "source" := VStr (split1_first ":" v); "slope" := VStr (split1_last " " v) ]}.

(** [trigger_mode] (line 225) *)
Definition trigger_mode_get_process (v : string) : gmap string value :=
  {[ "mode" := VStr (split1_last " " v) ]}.

(** [trigger_coupling] (lines 235-238) *)
Definition trigger_coupling_get_process (v : string) : gmap string value :=
  {[ "source" := VStr (split1_first ":" v); "coupling" := VStr (split1_last " " v) ]}.

(** [is_ready] (lines 343-345) *)
Definition is_ready_get_process (v : string) : bool :=
  bool_decide (split1_last " " v ∈ ["Stop"; "Ready"; "Armed"]).

Section Driver.
Context `{Python} {W : Type} `{Adapter W}.

(** *** Traffic *)

(** [Instrument.write(command)] *)
Definition write (command : string) : M W unit :=
  modify (λ st, Driver (adapter_write command (adapter st))
                       (log st ++ [EvWrite command])
                       (heap st) (trigger_id st) (trigger_triggerConfDict st)).

(** [Instrument.read()] *)
Definition read : M W string := λ st,
  let (reply, w) := adapter_read (adapter st) in
  (Ok reply, Driver w (log st ++ [EvRead])
                    (heap st) (trigger_id st) (trigger_triggerConfDict st)).

(** [Instrument.read_bytes(count=-1, break_on_termchar=True)] *)
Definition read_bytes : M W (list byte) := λ st,
  let (reply, w) := adapter_read_bytes (adapter st) in
  (Ok reply, Driver w (log st ++ [EvReadBytes])
                    (heap st) (trigger_id st) (trigger_triggerConfDict st)).

(** [Instrument.ask(command)]: a write, then a read. *)
Definition ask (command : string) : M W string :=
  write command ;; read.

(** Modelled from the spec: the property accessor of the framework
    ([Instrument.measurement], [Instrument.control]) is not in the source
    file.  Per the spec a property read sends the query, reads the
    formatted reply and hands it to the [get_process] of the property;
    the reply of [TRSE?] is first stripped of its head by
    [preprocess_reply] and split at commas. *)
Definition measurement (get_command : string) : M W string :=
  ask get_command.

(** Modelled from the spec: the same accessor for the reply to [TRSE?],
    which the table of the trigger fields reads as the tokens of the
    "comma-split reply after stripping leading TRSE". *)
Definition measurement_values (get_command : string)
    (preprocess_reply : string → result string) : M W (list string) :=
  reply ← ask get_command;
  v ← lift (preprocess_reply reply);
  mret (split_all "," v).

(** *** class VoltageChannel; [ch] is the id of the channel. *)

(** [VoltageChannel.get_desc] (lines 90-139) *)
Definition get_desc (ch : string) : M W descriptor :=
  let command := "C{ch}:WF? DESC" in
  write (insert_id ch command) ;;
  descriptor ← read_bytes;
  let descriptorOffset := 21%Z in
  numDataPoints ← lift (unpack_l descriptor (descriptorOffset + 60));
  verticalGain ← lift (unpack_f descriptor (descriptorOffset + 156));
  verticalOffset ← lift (unpack_f descriptor (descriptorOffset + 160));
  horizInterval ← lift (unpack_f descriptor (descriptorOffset + 176));
  horizOffset ← lift (unpack_d descriptor (descriptorOffset + 180));
  mret (Descriptor numDataPoints verticalGain verticalOffset
                   horizInterval horizOffset descriptorOffset).

(** Lines 73-88 of [get_waveform]: the samples of [response] under the
    descriptor, as [(timetags, waveform)]. *)
Definition decode_waveform (descriptorDictionnary : descriptor)
    (response : list byte) : result (list float * list float) :=
  match unpack_b (numDataPoints descriptorDictionnary) response
                 (descriptorOffset descriptorDictionnary) with
  | Raise e => Raise e
  | Ok rawWaveform =>
      let waveform :=
        (λ point, float_of_Z point * verticalGain descriptorDictionnary
                  - verticalOffset descriptorDictionnary)%float
          <$> rawWaveform in
      let timetags :=
        (λ i, float_of_Z (Z.of_nat i) * horizInterval descriptorDictionnary
              + horizOffset descriptorDictionnary)%float
          <$> seq 0 (length rawWaveform) in
      Ok (timetags, waveform)
  end.

(** [VoltageChannel.get_waveform] (lines 59-88) *)
Definition get_waveform (ch : string) : M W (list float * list float) :=
  let command := "C{ch}:WF? DAT2" in
  descriptorDictionnary ← get_desc ch;
  write (insert_id ch command) ;;
  response ← read_bytes;
  lift (decode_waveform descriptorDictionnary response).

(** *** class TriggerChannel *)

(** A read of [self.triggerConfDict]: the instance attribute when it is
    set, the class attribute otherwise. *)
Definition self_triggerConfDict (st : driver W) : loc :=
  default TriggerChannel_triggerConfDict (trigger_triggerConfDict st).

(** [x.update(other)] on the dictionary at [x]. *)
Definition heap_update (x : loc) (other : gmap string value) : M W unit :=
  modify (λ st, Driver (adapter st) (log st)
                       (<[x := dict_update (heap st !!! x) other]> (heap st))
                       (trigger_id st) (trigger_triggerConfDict st)).

(** [x[key] = v] on the dictionary at [x]. *)
Definition heap_setitem (x : loc) (key : string) (v : value) : M W unit :=
  modify (λ st, Driver (adapter st) (log st)
                       (<[x := <[key := v]> (heap st !!! x)]> (heap st))
                       (trigger_id st) (trigger_triggerConfDict st)).

(** The five properties of the trigger channel (lines 173-239). *)
Definition trigger_setup : M W (gmap string value) :=
  v ← measurement_values "TRSE?" trigger_setup_preprocess_reply;
  lift (trigger_setup_get_process v).

Definition trigger_level : M W (gmap string value) :=
  v ← measurement "TRLV?";
  lift (trigger_level_get_process v).

Definition trigger_slope : M W (gmap string value) :=
  v ← measurement "TRSL?";
  mret (trigger_slope_get_process v).

Definition trigger_mode : M W (gmap string value) :=
  v ← measurement "TRMD?";
  mret (trigger_mode_get_process v).

Definition trigger_coupling : M W (gmap string value) :=
  v ← measurement "TRCP?";
  mret (trigger_coupling_get_process v).

(** [self.triggerConfDict.update(self.<property>)]: the dictionary is
    looked up first, then the property is read, then it is merged in. *)
Definition update_from (property : M W (gmap string value)) : M W unit :=
  x ← gets self_triggerConfDict;
  other ← property;
  heap_update x other.

(** [TriggerChannel.get_triggerConfig] (lines 151-171): it returns the
    dictionary it updated, not a copy. *)
Definition get_triggerConfig : M W loc :=
  update_from trigger_setup ;;
  update_from trigger_level ;;
  update_from trigger_slope ;;
  update_from trigger_mode ;;
  update_from trigger_coupling ;;
  gets self_triggerConfDict.

(** [Channel.write(command)] on the trigger channel: the id of the
    channel, as it is at the time of the write, replaces [{ch}]. *)
Definition trigger_write (command : string) : M W unit :=
  ch ← gets trigger_id;
  write (insert_id (py_str ch) command).

(** Lines 284-285: [if kwargs.get("source") is not None:
    self.id = kwargs["source"]]. *)
Definition set_id_from (kwargs : list (string * value)) : M W unit :=
  match kwargs_get kwargs "source" with
  | None | Some VNone => mret tt
  | Some source =>
      modify (λ st, Driver (adapter st) (log st) (heap st) source
                           (trigger_triggerConfDict st))
  end.

(** The body of the loop of lines 290-291:
    [triggerConfDict[changedKey] = kwargs[changedKey]]. *)
Definition set_changed (triggerConfDict : loc) (kwargs : list (string * value))
    (changedKey : string) : M W unit :=
  match kwargs_get kwargs changedKey with
  | None => raise (KeyError changedKey)
  | Some v => heap_setitem triggerConfDict changedKey v
  end.

(** The body of the loop of lines 292-295:
    [self.write(setCommands[processKey] %
    setProcesses[processKey](triggerConfDict))]. *)
Definition write_process (triggerConfDict : loc) (processKey : string) : M W unit :=
  dictIn ← gets (λ st, heap st !!! triggerConfDict);
  args ← lift (setProcesses processKey dictIn);
  trigger_write (py_percent (setCommands processKey) (py_str <$> args)).

(** [TriggerChannel.set_triggerConfig] (lines 241-298).  The local name
    [triggerConfDict] holds the dictionary that [get_triggerConfig]
    returned, that is the cached one. *)
Definition set_triggerConfig (kwargs : list (string * value)) : M W bool :=
  triggerConfDict ← get_triggerConfig;
  set_id_from kwargs ;;
  current ← gets (λ st, heap st !!! triggerConfDict);
  changedValues ← lift (changed_keys current kwargs kwargs.*1);
  let processToChange := processToChange changedValues in
  foreach changedValues (set_changed triggerConfDict kwargs) ;;
  foreach processToChange (write_process triggerConfDict) ;;
  x ← get_triggerConfig;
  modify (λ st, Driver (adapter st) (log st) (heap st) (trigger_id st) (Some x)) ;;
  y ← gets self_triggerConfDict;
  statusFlag ← gets (λ st, dict_eq (heap st) y triggerConfDict);
  mret statusFlag.

(** *** class SDS1072CML *)

(** [is_ready] (lines 339-346) *)
Definition is_ready : M W bool :=
  v ← measurement "SAST?";
  mret (is_ready_get_process v).

(** [SDS1072CML.arm] (lines 354-361) *)
Definition arm : M W bool :=
  ready ← is_ready;
  if (ready : bool) then write "ARM" ;; mret true
  else mret false.
End Driver.

(** ** Hosts and a simulated oscilloscope

    Concrete instances of the two interfaces, on which the methods can be
    run. *)

(** Stand-ins for the float builtins of Python, defined on the few
    numbers that the runs below meet. *)
Definition float_of_str_table (s : string) : option float :=
  if decide (s = "2.50E-01") then Some 0.25%float
  else if decide (s = "5.00E-01") then Some 0.5%float
  else if decide (s = "0.00E+00") then Some 0%float
  else if decide (s = "2.50e-01") then Some 0.25%float
  else if decide (s = "5.00e-01") then Some 0.5%float
  else if decide (s = "0.00e+00") then Some 0%float
  else None.

Definition format_2e_table (x : float) : string :=
  if PrimFloat.eqb x 0.25 then "2.50e-01"
  else if PrimFloat.eqb x 0.5 then "5.00e-01"
  else if PrimFloat.eqb x 0 then "0.00e+00"
  else "?".

Definition str_of_float_table (x : float) : string :=
  if PrimFloat.eqb x 0.25 then "0.25"
  else if PrimFloat.eqb x 0.5 then "0.5"
  else if PrimFloat.eqb x 0 then "0.0"
  else "?".

(** A host where a C [long] has 8 bytes (Linux and macOS on x86-64 or
    arm64), little-endian. *)
Definition host_lp64 : Python :=
  {| sizeof_long := 8; big_endian := false;
     float_of_str := float_of_str_table; format_2e := format_2e_table;
     str_of_float := str_of_float_table |}.

(** A host where a C [long] has 4 bytes (Windows, 32-bit systems),
    little-endian. *)
Definition host_long4 : Python :=
  {| sizeof_long := 4; big_endian := false;
     float_of_str := float_of_str_table; format_2e := format_2e_table;
     str_of_float := str_of_float_table |}.

(** The simulated oscilloscope: its trigger settings and status as the
    texts it reports, the two binary blocks it sends for a waveform, the
    replies it has queued, and whether it adopts a set command or ignores
    it. *)
Record scope := Scope {
  sc_adopts : bool;
  sc_type : string;
  sc_source : string;
  sc_hold_type : string;
  sc_hold_value1 : string;
  sc_level : string;
  sc_slope : string;
  sc_mode : string;
  sc_coupling : string;
  sc_status : string;
  sc_descriptor : list byte;
  sc_samples : list byte;
  sc_replies : list string;
  sc_blocks : list (list byte)
}.

Definition scope_reply (r : string) (sc : scope) : scope :=
  Scope (sc_adopts sc) (sc_type sc) (sc_source sc) (sc_hold_type sc)
        (sc_hold_value1 sc) (sc_level sc) (sc_slope sc) (sc_mode sc)
        (sc_coupling sc) (sc_status sc) (sc_descriptor sc) (sc_samples sc)
        (sc_replies sc ++ [r]) (sc_blocks sc).

Definition scope_block (b : list byte) (sc : scope) : scope :=
  Scope (sc_adopts sc) (sc_type sc) (sc_source sc) (sc_hold_type sc)
        (sc_hold_value1 sc) (sc_level sc) (sc_slope sc) (sc_mode sc)
        (sc_coupling sc) (sc_status sc) (sc_descriptor sc) (sc_samples sc)
        (sc_replies sc) (sc_blocks sc ++ [b]).

(** What a set command changes on a scope that adopts it. *)
Definition scope_set (command : string) (sc : scope) : scope :=
  match split1 " " command with
  | (head, Some arg) =>
      if decide (head = "TRMD") then
        Scope (sc_adopts sc) (sc_type sc) (sc_source sc) (sc_hold_type sc)
              (sc_hold_value1 sc) (sc_level sc) (sc_slope sc) arg
              (sc_coupling sc) (sc_status sc) (sc_descriptor sc)
              (sc_samples sc) (sc_replies sc) (sc_blocks sc)
      else if decide (head = "TRSE") then
        match split_all "," arg with
        | [type; _; source; _; hold_type; _; hold_value1] =>
            Scope (sc_adopts sc) type source hold_type hold_value1
                  (sc_level sc) (sc_slope sc) (sc_mode sc) (sc_coupling sc)
                  (sc_status sc) (sc_descriptor sc) (sc_samples sc)
                  (sc_replies sc) (sc_blocks sc)
        | _ => sc
        end
      else if decide (head = "ARM") then sc
      else
        match split1 ":" head with
        | (_, Some "TRLV") =>
            Scope (sc_adopts sc) (sc_type sc) (sc_source sc) (sc_hold_type sc)
                  (sc_hold_value1 sc) (drop_last 1 arg) (sc_slope sc)
                  (sc_mode sc) (sc_coupling sc) (sc_status sc)
                  (sc_descriptor sc) (sc_samples sc) (sc_replies sc)
                  (sc_blocks sc)
        | (_, Some "TRSL") =>
            Scope (sc_adopts sc) (sc_type sc) (sc_source sc) (sc_hold_type sc)
                  (sc_hold_value1 sc) (sc_level sc) arg (sc_mode sc)
                  (sc_coupling sc) (sc_status sc) (sc_descriptor sc)
                  (sc_samples sc) (sc_replies sc) (sc_blocks sc)
        | (_, Some "TRCP") =>
            Scope (sc_adopts sc) (sc_type sc) (sc_source sc) (sc_hold_type sc)
                  (sc_hold_value1 sc) (sc_level sc) (sc_slope sc) (sc_mode sc)
                  arg (sc_status sc) (sc_descriptor sc)
                  (sc_samples sc) (sc_replies sc) (sc_blocks sc)
        | _ => sc
        end
  | _ => sc
  end.

Definition scope_write (command : string) (sc : scope) : scope :=
  if decide (command = "TRSE?") then
    scope_reply ("TRSE " +:+ sc_type sc +:+ ",SR," +:+ sc_source sc +:+ ",HT,"
                 +:+ sc_hold_type sc +:+ ",HV," +:+ sc_hold_value1 sc) sc
  else if decide (command = "TRLV?") then
    scope_reply (sc_source sc +:+ ":TRLV " +:+ sc_level sc +:+ " V") sc
  else if decide (command = "TRSL?") then
    scope_reply (sc_source sc +:+ ":TRSL " +:+ sc_slope sc) sc
  else if decide (command = "TRMD?") then
    scope_reply ("TRMD " +:+ sc_mode sc) sc
  else if decide (command = "TRCP?") then
    scope_reply (sc_source sc +:+ ":TRCP " +:+ sc_coupling sc) sc
  else if decide (command = "SAST?") then
    scope_reply ("SAST " +:+ sc_status sc) sc
  else if decide (command = "C1:WF? DESC") then
    scope_block (sc_descriptor sc) sc
  else if decide (command = "C1:WF? DAT2") then
    scope_block (sc_samples sc) sc
  else if sc_adopts sc then scope_set command sc
  else sc.

Definition scope_read (sc : scope) : string * scope :=
  match sc_replies sc with
  | [] => ("", sc)
  | r :: rest =>
      (r, Scope (sc_adopts sc) (sc_type sc) (sc_source sc) (sc_hold_type sc)
                (sc_hold_value1 sc) (sc_level sc) (sc_slope sc) (sc_mode sc)
                (sc_coupling sc) (sc_status sc) (sc_descriptor sc)
                (sc_samples sc) rest (sc_blocks sc))
  end.

Definition scope_read_bytes (sc : scope) : list byte * scope :=
  match sc_blocks sc with
  | [] => ([], sc)
  | b :: rest =>
      (b, Scope (sc_adopts sc) (sc_type sc) (sc_source sc) (sc_hold_type sc)
                (sc_hold_value1 sc) (sc_level sc) (sc_slope sc) (sc_mode sc)
                (sc_coupling sc) (sc_status sc) (sc_descriptor sc)
                (sc_samples sc) (sc_replies sc) rest)
  end.

#[global] Instance scope_adapter : Adapter scope :=
  {| adapter_write := scope_write; adapter_read := scope_read;
     adapter_read_bytes := scope_read_bytes |}.

(** [n] as [k] bytes, least significant first. *)
Fixpoint le_bytes (k : nat) (n : Z) : list byte :=
  match k with
  | O => []
  | S k' => default x00 (Byte.of_N (Z.to_N (n mod 256))) :: le_bytes k' (n / 256)
  end.

(** A descriptor block as the oscilloscope sends it: a header of 21 bytes,
    then the 346 bytes of the descriptor with the number of points at
    +60, the next field of the template (the size of a second array) at
    +64, gain and offset at +156 and +160, the sample interval at +176 and
    the time offset at +180, given by their bit patterns. *)
Definition descriptor_block (points second_array gain offset interval : Z)
    (time_offset : Z) : list byte :=
  replicate 81 x00 ++ le_bytes 4 points ++ le_bytes 4 second_array
  ++ replicate 88 x00 ++ le_bytes 4 gain ++ le_bytes 4 offset
  ++ replicate 12 x00 ++ le_bytes 4 interval ++ le_bytes 8 time_offset
  ++ replicate 158 x00.

(** A scope that triggers on an edge of channel 1, in AUTO mode, and holds
    a waveform of four samples: gain 0.5 V per code, offset 0.25 V, one
    sample every 0.125 s, starting at -0.5 s. *)
Definition bench_scope (adopts : bool) (second_array : Z) : scope :=
  Scope adopts "EDGE" "C1" "TI" "100NS" "2.50E-01" "POS" "AUTO" "DC" "Stop"
        (descriptor_block 4 second_array 0x3F000000 0x3E800000 0x3E000000
                          0xBFE0000000000000)
        (replicate 21 x00 ++ [x80; x00; x7f; xff])
        [] [].

(** An instrument that never answers: a write is lost and a read returns
    nothing. *)
Definition silent_adapter : Adapter unit :=
  {| adapter_write := λ _ w, w; adapter_read := λ w, ("", w);
     adapter_read_bytes := λ w, ([], w) |}.

(** ** Vocabulary of the statements *)

(** A method leaves a component [f] of the driver state as it found it,
    whether it returns or raises. *)
Definition preserves {W A B} (f : driver W → B) (m : M W A) : Prop :=
  ∀ st, f (m st).2 = f st.

(** One query and its reply, as the oscilloscope sees them. *)
Definition exchange {W} `{Adapter W} (command : string) (w : W) : string * W :=
  adapter_read (adapter_write command w).

(** One query and the binary block that answers it. *)
Definition exchange_bytes {W} `{Adapter W} (command : string) (w : W)
  : list byte * W :=
  adapter_read_bytes (adapter_write command w).

(** The traffic of one read of the trigger configuration. *)
Definition trigger_queries : list event :=
  [EvWrite "TRSE?"; EvRead; EvWrite "TRLV?"; EvRead; EvWrite "TRSL?"; EvRead;
   EvWrite "TRMD?"; EvRead; EvWrite "TRCP?"; EvRead].

(** The events of a read of the trigger configuration: the write of one
    of the five queries, or the read of a reply.  The write of any other
    command is not one of them. *)
Definition query_event (e : event) : Prop :=
  e ∈ trigger_queries.

(** All that a method adds to the record of the traffic are events of a
    read of the trigger configuration, whether it returns or raises. *)
Definition only_queries {W A} (m : M W A) : Prop :=
  ∀ st, ∃ evs, log (m st).2 = log st ++ evs ∧ Forall query_event evs.

(** The id of the trigger channel after lines 284-285. *)
Definition id_after {W} (kwargs : list (string * value)) (st : driver W) : value :=
  match kwargs_get kwargs "source" with
  | None | Some VNone => trigger_id st
  | Some source => source
  end.

(** The eight keys of a trigger configuration. *)
Definition config_keys : gset string :=
  {[ "type"; "source"; "hold_type"; "hold_value1";
     "level"; "slope"; "mode"; "coupling" ]}.

(** The cached configuration holds no key besides the eight. *)
Definition cache_ok {W} (st : driver W) : Prop :=
  dom (heap st !!! default TriggerChannel_triggerConfDict (trigger_triggerConfDict st))
    ⊆ config_keys.

(** A method keeps a property of the driver state, whether it returns or
    raises. *)
Definition maintains {W A} (I : driver W → Prop) (m : M W A) : Prop :=
  ∀ st, I st → I (m st).2.

(** The five replies of one read of the trigger configuration and the
    state of the oscilloscope after them. *)
Definition trigger_exchanges {W} `{Adapter W} (w : W)
  : (string * string * string * string * string) * W :=
  let (setup, w1) := exchange "TRSE?" w in
  let (level, w2) := exchange "TRLV?" w1 in
  let (slope, w3) := exchange "TRSL?" w2 in
  let (mode, w4) := exchange "TRMD?" w3 in
  let (coupling, w5) := exchange "TRCP?" w4 in
  ((setup, level, slope, mode, coupling), w5).

(** The dictionary that [trigger_setup] makes of a reply to [TRSE?]. *)
Definition trigger_setup_of_reply (reply : string) : result (gmap string value) :=
  match trigger_setup_preprocess_reply reply with
  | Ok v => trigger_setup_get_process (split_all "," v)
  | Raise e => Raise e
  end.

(** The field of [size] bytes at [offset], read least significant byte
    first. *)
Definition le_field (size offset : nat) (buffer : list byte) : Z :=
  le_unsigned (take size (drop offset buffer)).

(** The descriptor of a reply in the words of the specification (section
    4.1), to compare [get_desc] with: after a header of 21 bytes, the
    number of points at +60 as a 4-byte signed little-endian integer,
    gain, offset and sample interval at +156, +160 and +176 as
    little-endian binary32 numbers, and the time offset at +180 as a
    little-endian binary64 number. *)
Definition descriptor_layout (buffer : list byte) : descriptor :=
  Descriptor (to_signed 4 (le_field 4 (21 + 60) buffer))
             (float_of_bits32 (le_field 4 (21 + 156) buffer))
             (float_of_bits32 (le_field 4 (21 + 160) buffer))
             (float_of_bits32 (le_field 4 (21 + 176) buffer))
             (float_of_bits64 (le_field 8 (21 + 180) buffer))
             21.

(** The five [unpack_from] calls of [get_desc] on a reply. *)
Definition descriptor_of_reply `{Python} (reply : list byte) : result descriptor :=
  match unpack_l reply (21 + 60), unpack_f reply (21 + 156),
        unpack_f reply (21 + 160), unpack_f reply (21 + 176),
        unpack_d reply (21 + 180) with
  | Ok n, Ok gain, Ok offset, Ok interval, Ok time_offset =>
      Ok (Descriptor n gain offset interval time_offset 21)
  | _, _, _, _, _ => Raise StructError
  end.

(** ** The scalar controls

    The accessor of a control (validator, value mapping, query and set
    command) belongs to the framework; what the source file gives for
    each control are the two functions [get_process] and [set_process],
    which are embedded here. *)

(** [vertical_division] (line 45) and [timeDiv] (line 322) share one
    [get_process]: [float(v.split(" ", 1)[-1][:-1])]. *)
Definition vertical_division_get_process `{Python} (v : string) : result float :=
  match float_of_str (drop_last 1 (split1_last " " v)) with
  | Some x => Ok x
  | None => Raise ValueError
  end.

Definition timeDiv_get_process `{Python} (v : string) : result float :=
  match float_of_str (drop_last 1 (split1_last " " v)) with
  | Some x => Ok x
  | None => Raise ValueError
  end.

(** [vertical_division]: [set_process=lambda v: "%.2eV" % v] (line 46). *)
Definition vertical_division_set_process `{Python} (v : float) : string :=
  format_2e v +:+ "V".

(** [timeDiv]: [set_process=lambda v: "%.2eS" % v] (line 321). *)
Definition timeDiv_set_process `{Python} (v : float) : string :=
  format_2e v +:+ "S".

(** [coupling]: [get_process=lambda v: v.split(" ", 1)[-1][0]] (line 56);
    indexing an empty text is an [IndexError]. *)
Definition coupling_get_process (v : string) : result string :=
  match split1_last " " v with
  | EmptyString => Raise IndexError
  | String c _ => Ok (String c EmptyString)
  end.

(** [status] (line 329) and [internal_state] (line 336):
    [get_process=lambda v: v.split(" ", 1)[-1]]. *)
Definition status_get_process (v : string) : string :=
  split1_last " " v.

(** ** More vocabulary *)

(** [c in s] for a character and a text. *)
Fixpoint has_char (c : Ascii.ascii) (s : string) : bool :=
  match s with
  | EmptyString => false
  | String c' s' => Ascii.eqb c' c || has_char c s'
  end.

(** The text of the set command of the group [processKey], for the id of
    the trigger channel and the configuration at the time of the write:
    what the loop of lines 292-295 hands to the adapter. *)
Definition set_command `{Python} (id : value) (dictIn : gmap string value)
    (processKey : string) : result string :=
  match setProcesses processKey dictIn with
  | Ok args =>
      Ok (insert_id (py_str id)
            (py_percent (setCommands processKey) (py_str <$> args)))
  | Raise e => Raise e
  end.

(** The dictionary after the loop of lines 290-291 over [keys]. *)
Fixpoint apply_changed (kwargs : list (string * value)) (keys : list string)
    (d : gmap string value) : gmap string value :=
  match keys with
  | [] => d
  | key :: rest =>
      match kwargs_get kwargs key with
      | Some v => apply_changed kwargs rest (<[key := v]> d)
      | None => d
      end
  end.

(** The eight entries of a cached configuration are those of the five
    replies [setup], [level], [slope], [mode] and [coupling]: type, hold
    type and hold value from the first, the level from the second, slope
    and mode from the third and fourth, coupling and source from the
    last. *)
Definition cache_reports `{Python} (cache : gmap string value)
    (setup level slope mode coupling : string) : Prop :=
  ∃ d1 x,
    trigger_setup_of_reply setup = Ok d1
    ∧ float_of_str (drop_last 2 (split1_last " " level)) = Some x
    ∧ cache !! "type" = d1 !! "type"
    ∧ cache !! "hold_type" = d1 !! "hold_type"
    ∧ cache !! "hold_value1" = d1 !! "hold_value1"
    ∧ cache !! "level" = Some (VFloat x)
    ∧ cache !! "slope" = Some (VStr (split1_last " " slope))
    ∧ cache !! "mode" = Some (VStr (split1_last " " mode))
    ∧ cache !! "coupling" = Some (VStr (split1_last " " coupling))
    ∧ cache !! "source" = Some (VStr (split1_first ":" coupling)).

(** * Properties *)

(** Unfolds the monad and the accessors of the driver state. *)
Ltac msimpl :=
  unfold mbind, M_bind, mret, M_ret, write, read, read_bytes, modify, gets, lift, raise;
  cbn beta iota zeta delta [fst snd adapter log heap trigger_id trigger_triggerConfDict].

Section Properties.
Context `{Python} {W : Type} `{Adapter W}.

(** ** The monad and the traffic of a query *)

Lemma bind_unfold {A B} (m : M W A) (f : A → M W B) st :
  (m ≫= f) st = match m st with
                | (Ok a, st') => f a st'
                | (Raise e, st') => (Raise e, st')
                end.
Proof. reflexivity. Qed.

Lemma ask_run command st :
  ask command st =
    (Ok (exchange command (adapter st)).1,
     Driver (exchange command (adapter st)).2
            (log st ++ [EvWrite command; EvRead])
            (heap st) (trigger_id st) (trigger_triggerConfDict st)).
Proof.
  unfold ask, write, read, modify, exchange. rewrite bind_unfold. cbn.
  destruct (adapter_read _) as [reply w]. cbn.
  by rewrite <- app_assoc.
Qed.

(** ** Arming *)

(** C8: [arm] asks for the status once.  When the status is none of Stop,
    Ready and Armed it writes nothing more and returns false; when it is
    one of them it writes the single command ARM and returns true.  The
    traffic ends there in both cases: nothing is read back after ARM, so
    the result does not depend on what the oscilloscope does with it. *)
Theorem arm_guarded (st : driver W) :
  let reply := (exchange "SAST?" (adapter st)).1 in
  let ready := bool_decide (split1_last " " reply ∈ ["Stop"; "Ready"; "Armed"]) in
  (arm st).1 = Ok ready ∧
  log (arm st).2 =
    log st ++ [EvWrite "SAST?"; EvRead] ++ (if ready then [EvWrite "ARM"] else []).
Proof.
  intros reply ready. unfold arm, is_ready, measurement.
  rewrite !bind_unfold, ask_run.
  unfold mret at 1, M_ret at 1. cbv beta iota.
  unfold is_ready_get_process. fold reply. fold ready.
  destruct ready; msimpl.
  - split; [done|]. by rewrite <- app_assoc.
  - split; [done|]. done.
Qed.

(** ** Descriptor and waveform *)

Lemma insert_id_desc ch : insert_id ch "C{ch}:WF? DESC" = "C" +:+ ch +:+ ":WF? DESC".
Proof. reflexivity. Qed.

Lemma insert_id_dat2 ch : insert_id ch "C{ch}:WF? DAT2" = "C" +:+ ch +:+ ":WF? DAT2".
Proof. reflexivity. Qed.

Lemma unpack_slice_error size buffer offset e :
  unpack_slice size buffer offset = Raise e → e = StructError.
Proof.
  unfold unpack_slice. repeat case_match; congruence.
Qed.

Lemma unpack_l_error buffer offset e : unpack_l buffer offset = Raise e → e = StructError.
Proof.
  unfold unpack_l. destruct (unpack_slice _ _ _) eqn:E; [done|].
  intros [= <-]. by eapply unpack_slice_error.
Qed.

Lemma unpack_f_error buffer offset e : unpack_f buffer offset = Raise e → e = StructError.
Proof.
  unfold unpack_f. destruct (unpack_slice _ _ _) eqn:E; [done|].
  intros [= <-]. by eapply unpack_slice_error.
Qed.

Lemma unpack_d_error buffer offset e : unpack_d buffer offset = Raise e → e = StructError.
Proof.
  unfold unpack_d. destruct (unpack_slice _ _ _) eqn:E; [done|].
  intros [= <-]. by eapply unpack_slice_error.
Qed.

Lemma get_desc_run ch st :
  get_desc ch st =
    (descriptor_of_reply (exchange_bytes ("C" +:+ ch +:+ ":WF? DESC") (adapter st)).1,
     Driver (exchange_bytes ("C" +:+ ch +:+ ":WF? DESC") (adapter st)).2
            (log st ++ [EvWrite ("C" +:+ ch +:+ ":WF? DESC"); EvReadBytes])
            (heap st) (trigger_id st) (trigger_triggerConfDict st)).
Proof.
  unfold get_desc, exchange_bytes, descriptor_of_reply. rewrite insert_id_desc.
  msimpl. destruct (adapter_read_bytes _) as [reply w]. msimpl.
  rewrite <- app_assoc. cbn [app].
  destruct (unpack_l reply _) eqn:E1; [|by rewrite (unpack_l_error _ _ _ E1)].
  destruct (unpack_f reply (21 + 156)) eqn:E2; [|by rewrite (unpack_f_error _ _ _ E2)].
  destruct (unpack_f reply (21 + 160)) eqn:E3; [|by rewrite (unpack_f_error _ _ _ E3)].
  destruct (unpack_f reply (21 + 176)) eqn:E4; [|by rewrite (unpack_f_error _ _ _ E4)].
  destruct (unpack_d reply (21 + 180)) eqn:E5; [|by rewrite (unpack_d_error _ _ _ E5)].
  done.
Qed.

Lemma get_waveform_run ch st :
  get_waveform ch st =
    match get_desc ch st with
    | (Ok d, st1) =>
        (decode_waveform d (exchange_bytes ("C" +:+ ch +:+ ":WF? DAT2") (adapter st1)).1,
         Driver (exchange_bytes ("C" +:+ ch +:+ ":WF? DAT2") (adapter st1)).2
                (log st1 ++ [EvWrite ("C" +:+ ch +:+ ":WF? DAT2"); EvReadBytes])
                (heap st1) (trigger_id st1) (trigger_triggerConfDict st1))
    | (Raise e, st1) => (Raise e, st1)
    end.
Proof.
  unfold get_waveform. rewrite insert_id_dat2, bind_unfold.
  destruct (get_desc ch st) as [[d|e] st1]; [|done].
  unfold exchange_bytes. msimpl.
  destruct (adapter_read_bytes _) as [response w]. msimpl.
  by rewrite <- app_assoc.
Qed.

(** C7: the traffic of [get_waveform] is always the descriptor query (the
    write of [C<ch>:WF? DESC], then one read of bytes), followed, when the
    descriptor decodes, by the waveform query (the write of
    [C<ch>:WF? DAT2], then one read of bytes) and by nothing else; when
    the descriptor does not decode the waveform query is never sent.  The
    read of the samples therefore never comes before the read of the
    descriptor. *)
Theorem get_waveform_order ch st :
  log (get_waveform ch st).2 =
    log st ++ [EvWrite ("C" +:+ ch +:+ ":WF? DESC"); EvReadBytes]
           ++ match (get_desc ch st).1 with
              | Ok _ => [EvWrite ("C" +:+ ch +:+ ":WF? DAT2"); EvReadBytes]
              | Raise _ => []
              end.
Proof.
  rewrite get_waveform_run, get_desc_run.
  destruct (descriptor_of_reply _); cbn [fst snd log adapter].
  - by rewrite <- app_assoc.
  - done.
Qed.

Lemma unpack_slice_within (size offset : Z) (buffer : list byte) :
  (0 ≤ size)%Z → (0 ≤ offset)%Z → (offset + size ≤ Z.of_nat (length buffer))%Z →
  unpack_slice size buffer offset =
    Ok (take (Z.to_nat size) (drop (Z.to_nat offset) buffer)).
Proof.
  intros Hs Ho Hlen. unfold unpack_slice.
  destruct (Z.ltb_spec offset 0); [lia|].
  destruct (Z.ltb_spec (Z.of_nat (length buffer) - offset) size); [lia|done].
Qed.

Lemma decode_waveform_samples (d : descriptor) (response : list byte) :
  (0 ≤ numDataPoints d)%Z → (0 ≤ descriptorOffset d)%Z →
  (descriptorOffset d + numDataPoints d ≤ Z.of_nat (length response))%Z →
  ∃ timetags waveform,
    decode_waveform d response = Ok (timetags, waveform) ∧
    length timetags = Z.to_nat (numDataPoints d) ∧
    length waveform = Z.to_nat (numDataPoints d) ∧
    ∀ i : nat, (i < Z.to_nat (numDataPoints d))%nat →
      ∃ b, response !! (Z.to_nat (descriptorOffset d) + i)%nat = Some b ∧
           waveform !! i =
             Some (float_of_Z (to_signed 1 (byte_val b)) * verticalGain d
                   - verticalOffset d)%float ∧
           timetags !! i =
             Some (float_of_Z (Z.of_nat i) * horizInterval d + horizOffset d)%float.
Proof.
  intros HN Hoff Hlen. unfold decode_waveform, unpack_b.
  destruct (Z.ltb_spec (numDataPoints d) 0); [lia|].
  rewrite unpack_slice_within by done.
  set (raw := take _ _).
  assert (Hraw : length raw = Z.to_nat (numDataPoints d)).
  { unfold raw. rewrite length_take, length_drop. lia. }
  eexists _, _. split; [done|].
  rewrite !length_fmap, length_seq, Hraw. split; [done|]. split; [done|].
  intros i Hi.
  destruct (lookup_lt_is_Some_2 raw i) as [b Hb]; [lia|].
  exists b. split; [|split].
  - unfold raw in Hb. rewrite lookup_take_lt in Hb by done.
    by rewrite lookup_drop in Hb.
  - by rewrite !list_lookup_fmap, Hb.
  - rewrite list_lookup_fmap, lookup_seq_lt by done. done.
Qed.

(** C4: when [get_desc] has returned the descriptor [d], with a count of
    points [N >= 0], and the reply to the waveform query holds at least
    [descriptorOffset + N] bytes, [get_waveform] returns two lists of
    length [N]: for every [i < N], with [b] the byte of the reply at
    position [descriptorOffset + i] and [c] its value as a signed 8-bit
    integer, the voltage at [i] is [c * verticalGain - verticalOffset] and
    the time at [i] is [i * horizInterval + horizOffset], in binary64
    arithmetic. *)
Theorem get_waveform_samples ch st d st1 response w2 :
  get_desc ch st = (Ok d, st1) →
  exchange_bytes ("C" +:+ ch +:+ ":WF? DAT2") (adapter st1) = (response, w2) →
  (0 ≤ numDataPoints d)%Z →
  (descriptorOffset d + numDataPoints d ≤ Z.of_nat (length response))%Z →
  ∃ timetags waveform,
    (get_waveform ch st).1 = Ok (timetags, waveform) ∧
    length timetags = Z.to_nat (numDataPoints d) ∧
    length waveform = Z.to_nat (numDataPoints d) ∧
    ∀ i : nat, (i < Z.to_nat (numDataPoints d))%nat →
      ∃ b, response !! (Z.to_nat (descriptorOffset d) + i)%nat = Some b ∧
           waveform !! i =
             Some (float_of_Z (to_signed 1 (byte_val b)) * verticalGain d
                   - verticalOffset d)%float ∧
           timetags !! i =
             Some (float_of_Z (Z.of_nat i) * horizInterval d + horizOffset d)%float.
Proof.
  intros Hdesc Hdat HN Hlen.
  assert (Hoff : descriptorOffset d = 21%Z).
  { rewrite get_desc_run in Hdesc. injection Hdesc as Hd _.
    unfold descriptor_of_reply in Hd. repeat case_match; try done.
    by injection Hd as <-. }
  rewrite get_waveform_run, Hdesc, Hdat. cbn [fst snd].
  apply decode_waveform_samples; [done|lia|done].
Qed.

Lemma descriptor_of_reply_long4 (reply : list byte) :
  sizeof_long = 4%nat → big_endian = false → (209 ≤ length reply)%nat →
  descriptor_of_reply reply = Ok (descriptor_layout reply).
Proof.
  intros Hlong Hle Hlen.
  unfold descriptor_of_reply, unpack_l, unpack_f, unpack_d, native_unsigned.
  rewrite Hlong, Hle, !unpack_slice_within by lia.
  done.
Qed.

(** On a little-endian host whose C [long] has 4 bytes, [get_desc] returns
    the descriptor of the layout for every reply of at least 209 bytes:
    there the code does what C3 says. *)
Theorem get_desc_layout_long4 ch st reply w :
  sizeof_long = 4%nat → big_endian = false →
  exchange_bytes ("C" +:+ ch +:+ ":WF? DESC") (adapter st) = (reply, w) →
  (209 ≤ length reply)%nat →
  (get_desc ch st).1 = Ok (descriptor_layout reply).
Proof.
  intros Hlong Hle Hex Hlen. rewrite get_desc_run, Hex. cbn [fst].
  by apply descriptor_of_reply_long4.
Qed.

(** On a little-endian host whose C [long] has 8 bytes, the number of
    points is read from the 8 bytes at +60 to +67; the other fields are
    those of the layout. *)
Lemma descriptor_of_reply_long8 (reply : list byte) :
  sizeof_long = 8%nat → big_endian = false → (209 ≤ length reply)%nat →
  descriptor_of_reply reply =
    Ok (Descriptor (to_signed 8 (le_field 8 (21 + 60) reply))
                   (verticalGain (descriptor_layout reply))
                   (verticalOffset (descriptor_layout reply))
                   (horizInterval (descriptor_layout reply))
                   (horizOffset (descriptor_layout reply)) 21).
Proof.
  intros Hlong Hle Hlen.
  unfold descriptor_of_reply, unpack_l, unpack_f, unpack_d, native_unsigned.
  rewrite Hlong, Hle, !unpack_slice_within by lia.
  done.
Qed.
(** ** The read of the trigger configuration *)

Lemma trigger_setup_run st :
  trigger_setup st =
    (trigger_setup_of_reply (exchange "TRSE?" (adapter st)).1,
     Driver (exchange "TRSE?" (adapter st)).2
            (log st ++ [EvWrite "TRSE?"; EvRead])
            (heap st) (trigger_id st) (trigger_triggerConfDict st)).
Proof.
  unfold trigger_setup, measurement_values, trigger_setup_of_reply.
  rewrite !bind_unfold, ask_run. msimpl.
  by destruct (trigger_setup_preprocess_reply _).
Qed.

Lemma trigger_level_run st :
  trigger_level st =
    (trigger_level_get_process (exchange "TRLV?" (adapter st)).1,
     Driver (exchange "TRLV?" (adapter st)).2
            (log st ++ [EvWrite "TRLV?"; EvRead])
            (heap st) (trigger_id st) (trigger_triggerConfDict st)).
Proof.
  unfold trigger_level, measurement. by rewrite !bind_unfold, ask_run.
Qed.

Lemma trigger_slope_run st :
  trigger_slope st =
    (Ok (trigger_slope_get_process (exchange "TRSL?" (adapter st)).1),
     Driver (exchange "TRSL?" (adapter st)).2
            (log st ++ [EvWrite "TRSL?"; EvRead])
            (heap st) (trigger_id st) (trigger_triggerConfDict st)).
Proof.
  unfold trigger_slope, measurement. by rewrite !bind_unfold, ask_run.
Qed.

Lemma trigger_mode_run st :
  trigger_mode st =
    (Ok (trigger_mode_get_process (exchange "TRMD?" (adapter st)).1),
     Driver (exchange "TRMD?" (adapter st)).2
            (log st ++ [EvWrite "TRMD?"; EvRead])
            (heap st) (trigger_id st) (trigger_triggerConfDict st)).
Proof.
  unfold trigger_mode, measurement. by rewrite !bind_unfold, ask_run.
Qed.

Lemma trigger_coupling_run st :
  trigger_coupling st =
    (Ok (trigger_coupling_get_process (exchange "TRCP?" (adapter st)).1),
     Driver (exchange "TRCP?" (adapter st)).2
            (log st ++ [EvWrite "TRCP?"; EvRead])
            (heap st) (trigger_id st) (trigger_triggerConfDict st)).
Proof.
  unfold trigger_coupling, measurement. by rewrite !bind_unfold, ask_run.
Qed.

Lemma update_from_run (property : M W (gmap string value)) st :
  update_from property st =
    match property st with
    | (Ok other, st') =>
        (Ok tt, Driver (adapter st') (log st')
                       (<[self_triggerConfDict st :=
                            other ∪ heap st' !!! self_triggerConfDict st]> (heap st'))
                       (trigger_id st') (trigger_triggerConfDict st'))
    | (Raise e, st') => (Raise e, st')
    end.
Proof.
  unfold update_from, heap_update, dict_update. msimpl.
  by destruct (property st) as [[other|e] st'].
Qed.

Lemma trigger_setup_of_reply_dom reply d :
  trigger_setup_of_reply reply = Ok d →
  dom d = ({[ "type"; "source"; "hold_type"; "hold_value1" ]} : gset string).
Proof.
  unfold trigger_setup_of_reply, trigger_setup_get_process.
  repeat case_match; try done. intros [= <-].
  rewrite !dom_insert_L, dom_singleton_L. set_solver.
Qed.

Lemma trigger_level_get_process_dom reply d :
  trigger_level_get_process reply = Ok d →
  dom d = ({[ "source"; "level" ]} : gset string).
Proof.
  unfold trigger_level_get_process. case_match; [|done]. intros [= <-].
  rewrite !dom_insert_L, dom_singleton_L. set_solver.
Qed.

Lemma bind_ok {A B} (m : M W A) (f : A → M W B) st a st' :
  m st = (Ok a, st') → (m ≫= f) st = f a st'.
Proof. intros Hm. by rewrite bind_unfold, Hm. Qed.

(** One line of [get_triggerConfig], for a property whose reply parses. *)
Lemma update_from_step (property : M W (gmap string value)) command
    (parse : string → result (gmap string value)) x cell h st reply w d :
  (∀ st, property st =
           (parse (exchange command (adapter st)).1,
            Driver (exchange command (adapter st)).2
                   (log st ++ [EvWrite command; EvRead])
                   (heap st) (trigger_id st) (trigger_triggerConfDict st))) →
  self_triggerConfDict st = x →
  heap st = <[x := cell]> h →
  exchange command (adapter st) = (reply, w) →
  parse reply = Ok d →
  update_from property st =
    (Ok tt, Driver w (log st ++ [EvWrite command; EvRead])
                   (<[x := d ∪ cell]> h) (trigger_id st) (trigger_triggerConfDict st)).
Proof.
  intros Hrun Hx Hheap Hex Hparse.
  rewrite update_from_run, Hrun, Hex. cbn [fst snd]. rewrite Hparse.
  cbn [adapter log heap trigger_id trigger_triggerConfDict].
  by rewrite Hx, Hheap, lookup_total_insert_eq, insert_insert_eq.
Qed.

Lemma get_triggerConfig_run st setup level slope mode coupling w5 d1 d2 :
  trigger_exchanges (adapter st) = ((setup, level, slope, mode, coupling), w5) →
  trigger_setup_of_reply setup = Ok d1 →
  trigger_level_get_process level = Ok d2 →
  get_triggerConfig st =
    (Ok (self_triggerConfDict st),
     Driver w5 (log st ++ trigger_queries)
            (<[self_triggerConfDict st :=
                 trigger_coupling_get_process coupling
                 ∪ (trigger_mode_get_process mode
                    ∪ (trigger_slope_get_process slope
                       ∪ (d2 ∪ (d1 ∪ heap st !!! self_triggerConfDict st))))]>
               (heap st))
            (trigger_id st) (trigger_triggerConfDict st)).
Proof.
  intros Hex Hd1 Hd2. unfold trigger_exchanges in Hex.
  destruct (exchange "TRSE?" _) as [r1 w1] eqn:E1.
  destruct (exchange "TRLV?" _) as [r2 w2] eqn:E2.
  destruct (exchange "TRSL?" _) as [r3 w3] eqn:E3.
  destruct (exchange "TRMD?" _) as [r4 w4] eqn:E4.
  destruct (exchange "TRCP?" _) as [r5 w5'] eqn:E5.
  injection Hex as -> -> -> -> -> ->.
  set (x := self_triggerConfDict st).
  unfold get_triggerConfig.
  erewrite bind_ok; last first.
  { rewrite update_from_run, trigger_setup_run, E1. cbn [fst snd]. by rewrite Hd1. }
  cbn [adapter log heap trigger_id trigger_triggerConfDict]. fold x.
  erewrite bind_ok; last first.
  { eapply (update_from_step _ _ _ x); [apply trigger_level_run|done|done|exact E2|exact Hd2]. }
  cbn [log trigger_id trigger_triggerConfDict].
  erewrite bind_ok; last first.
  { eapply (update_from_step _ _ (λ r, Ok (trigger_slope_get_process r)) x);
      [apply trigger_slope_run|done|done|exact E3|done]. }
  cbn [log trigger_id trigger_triggerConfDict].
  erewrite bind_ok; last first.
  { eapply (update_from_step _ _ (λ r, Ok (trigger_mode_get_process r)) x);
      [apply trigger_mode_run|done|done|exact E4|done]. }
  cbn [log trigger_id trigger_triggerConfDict].
  erewrite bind_ok; last first.
  { eapply (update_from_step _ _ (λ r, Ok (trigger_coupling_get_process r)) x);
      [apply trigger_coupling_run|done|done|exact E5|done]. }
  cbn [log trigger_id trigger_triggerConfDict].
  unfold gets, self_triggerConfDict. cbn [trigger_triggerConfDict].
  unfold trigger_queries. by rewrite <- !app_assoc.
Qed.

Lemma trigger_slope_get_process_dom reply :
  dom (trigger_slope_get_process reply) = ({[ "source"; "slope" ]} : gset string).
Proof.
  unfold trigger_slope_get_process. rewrite !dom_insert_L, dom_singleton_L. set_solver.
Qed.

Lemma trigger_mode_get_process_dom reply :
  dom (trigger_mode_get_process reply) = ({[ "mode" ]} : gset string).
Proof. unfold trigger_mode_get_process. by rewrite dom_singleton_L. Qed.

Lemma trigger_coupling_get_process_dom reply :
  dom (trigger_coupling_get_process reply) = ({[ "source"; "coupling" ]} : gset string).
Proof.
  unfold trigger_coupling_get_process. rewrite !dom_insert_L, dom_singleton_L.
  set_solver.
Qed.

(** C5: when the replies to TRSE? and TRLV? parse, [get_triggerConfig]
    sends the five queries TRSE?, TRLV?, TRSL?, TRMD?, TRCP? in this
    order, each followed by the read of its reply, merges the five
    dictionaries into the cached one so that a later reply wins over an
    earlier one, and returns the cached dictionary itself.  The keys of
    the five dictionaries overlap in "source" only, and the merged
    "source" is the one of the reply to TRCP?, the last query. *)
Theorem get_triggerConfig_merges st setup level slope mode coupling w5 d1 d2 :
  trigger_exchanges (adapter st) = ((setup, level, slope, mode, coupling), w5) →
  trigger_setup_of_reply setup = Ok d1 →
  trigger_level_get_process level = Ok d2 →
  let d3 := trigger_slope_get_process slope in
  let d4 := trigger_mode_get_process mode in
  let d5 := trigger_coupling_get_process coupling in
  let x := self_triggerConfDict st in
  let merged := d5 ∪ (d4 ∪ (d3 ∪ (d2 ∪ (d1 ∪ heap st !!! x)))) in
  get_triggerConfig st =
    (Ok x, Driver w5 (log st ++ trigger_queries) (<[x := merged]> (heap st))
                  (trigger_id st) (trigger_triggerConfDict st))
  ∧ merged !! "source" = Some (VStr (split1_first ":" coupling))
  ∧ dom d1 = {[ "type"; "source"; "hold_type"; "hold_value1" ]}
  ∧ dom d2 = {[ "source"; "level" ]}
  ∧ dom d3 = {[ "source"; "slope" ]}
  ∧ dom d4 = {[ "mode" ]}
  ∧ dom d5 = {[ "source"; "coupling" ]}.
Proof.
  intros Hex Hd1 Hd2 d3 d4 d5 x merged.
  split; [exact (get_triggerConfig_run _ _ _ _ _ _ _ _ _ Hex Hd1 Hd2)|].
  split; [by apply lookup_union_Some_l|].
  split; [by eapply trigger_setup_of_reply_dom|].
  split; [by eapply trigger_level_get_process_dom|].
  split; [apply trigger_slope_get_process_dom|].
  split; [apply trigger_mode_get_process_dom|apply trigger_coupling_get_process_dom].
Qed.

(** ** What the read leaves alone *)

Lemma preserves_bind {A B C} (f : driver W → C) (m : M W A) (k : A → M W B) :
  preserves f m → (∀ a, preserves f (k a)) → preserves f (m ≫= k).
Proof.
  intros Hm Hk st. rewrite bind_unfold. specialize (Hm st).
  destruct (m st) as [[a|e] st1]; cbn [snd] in *; [|done].
  by rewrite Hk.
Qed.

Lemma preserves_gets {A C} (f : driver W → C) (g : driver W → A) : preserves f (gets g).
Proof. done. Qed.

Lemma preserves_foreach {A C} (f : driver W → C) (l : list A) (body : A → M W unit) :
  (∀ a, preserves f (body a)) → preserves f (foreach l body).
Proof.
  intros Hbody. induction l as [|a l IH]; [done|].
  cbn [foreach]. apply preserves_bind; [done|]. by intros _.
Qed.

Lemma preserves_update_from {C} (f : driver W → C) (property : M W (gmap string value)) :
  (∀ a l h i c, f (Driver a l h i c) = f (Driver a l ∅ i c)) →
  preserves f property → preserves f (update_from property).
Proof.
  intros Hheap Hp st. rewrite update_from_run. specialize (Hp st).
  destruct (property st) as [[other|e] [a l h i c]]; cbn [snd] in *; [|done].
  by rewrite Hheap, <- Hp, (Hheap _ _ h).
Qed.

Lemma preserves_property {C} (f : driver W → C) :
  (∀ a a' l l' h i c, f (Driver a l h i c) = f (Driver a' l' h i c)) →
  preserves f trigger_setup ∧ preserves f trigger_level ∧ preserves f trigger_slope
  ∧ preserves f trigger_mode ∧ preserves f trigger_coupling.
Proof.
  intros Hf. repeat split; intros [a l h i c].
  - rewrite trigger_setup_run. apply Hf.
  - rewrite trigger_level_run. apply Hf.
  - rewrite trigger_slope_run. apply Hf.
  - rewrite trigger_mode_run. apply Hf.
  - rewrite trigger_coupling_run. apply Hf.
Qed.

Lemma preserves_get_triggerConfig {C} (f : driver W → C) :
  (∀ a a' l l' h h' i c, f (Driver a l h i c) = f (Driver a' l' h' i c)) →
  preserves f get_triggerConfig.
Proof.
  intros Hf.
  destruct (preserves_property f) as (H1 & H2 & H3 & H4 & H5); [by intros; apply Hf|].
  unfold get_triggerConfig.
  repeat (apply preserves_bind; [apply preserves_update_from; [by intros; apply Hf|done]|intros _]).
  apply preserves_gets.
Qed.

Lemma get_triggerConfig_id : preserves trigger_id get_triggerConfig.
Proof. by apply preserves_get_triggerConfig. Qed.

Lemma only_queries_bind {A B} (m : M W A) (k : A → M W B) :
  only_queries m → (∀ a, only_queries (k a)) → only_queries (m ≫= k).
Proof.
  intros Hm Hk st. rewrite bind_unfold. destruct (Hm st) as (evs & Hlog & Hevs).
  destruct (m st) as [[a|e] st1]; cbn [snd] in *; [|by exists evs].
  destruct (Hk a st1) as (evs' & Hlog' & Hevs').
  exists (evs ++ evs'). rewrite Hlog', Hlog, <- app_assoc. split; [done|].
  by apply Forall_app.
Qed.

Lemma only_queries_silent {A} (m : M W A) : preserves log m → only_queries m.
Proof. intros Hm st. exists []. by rewrite Hm, app_nil_r. Qed.

Lemma only_queries_update_from (property : M W (gmap string value)) :
  only_queries property → only_queries (update_from property).
Proof.
  intros Hp st. rewrite update_from_run. destruct (Hp st) as (evs & Hlog & Hevs).
  exists evs. by destruct (property st) as [[other|e] st1].
Qed.

Lemma only_queries_get_triggerConfig : only_queries get_triggerConfig.
Proof.
  unfold get_triggerConfig.
  repeat (apply only_queries_bind; [apply only_queries_update_from|intros _]).
  6: by apply only_queries_silent.
  all: intros st.
  - rewrite trigger_setup_run. eexists. split; [done|].
    unfold query_event, trigger_queries. repeat constructor.
  - rewrite trigger_level_run. eexists. split; [done|].
    unfold query_event, trigger_queries. repeat constructor.
  - rewrite trigger_slope_run. eexists. split; [done|].
    unfold query_event, trigger_queries. repeat constructor.
  - rewrite trigger_mode_run. eexists. split; [done|].
    unfold query_event, trigger_queries. repeat constructor.
  - rewrite trigger_coupling_run. eexists. split; [done|].
    unfold query_event, trigger_queries. repeat constructor.
Qed.

Lemma get_triggerConfig_ok st x st' :
  get_triggerConfig st = (Ok x, st') →
  ∃ setup level slope mode coupling w5 d1 d2,
    trigger_exchanges (adapter st) = ((setup, level, slope, mode, coupling), w5)
    ∧ trigger_setup_of_reply setup = Ok d1
    ∧ trigger_level_get_process level = Ok d2.
Proof.
  intros Hget.
  destruct (trigger_exchanges (adapter st)) as [[[[[setup level] slope] mode] coupling] w5] eqn:Hex.
  exists setup, level, slope, mode, coupling, w5.
  unfold trigger_exchanges in Hex.
  destruct (exchange "TRSE?" _) as [r1 w1] eqn:E1.
  destruct (exchange "TRLV?" _) as [r2 w2] eqn:E2.
  destruct (exchange "TRSL?" _) as [r3 w3] eqn:E3.
  destruct (exchange "TRMD?" _) as [r4 w4] eqn:E4.
  destruct (exchange "TRCP?" _) as [r5 w5'] eqn:E5.
  injection Hex as -> -> -> -> -> ->.
  unfold get_triggerConfig in Hget.
  rewrite bind_unfold, update_from_run, trigger_setup_run, E1 in Hget. cbn [fst snd] in Hget.
  destruct (trigger_setup_of_reply setup) as [d1|e1]; [|done].
  rewrite bind_unfold, update_from_run, trigger_level_run in Hget.
  cbn [fst snd adapter] in Hget. rewrite E2 in Hget. cbn [fst snd] in Hget.
  destruct (trigger_level_get_process level) as [d2|e2]; [|done].
  by exists d1, d2.
Qed.

Lemma get_triggerConfig_ok_frame st x st' :
  get_triggerConfig st = (Ok x, st') →
  x = self_triggerConfDict st
  ∧ log st' = log st ++ trigger_queries
  ∧ trigger_id st' = trigger_id st
  ∧ trigger_triggerConfDict st' = trigger_triggerConfDict st
  ∧ dom (heap st' !!! x) = config_keys ∪ dom (heap st !!! x).
Proof.
  intros Hget.
  destruct (get_triggerConfig_ok _ _ _ Hget)
    as (setup & level & slope & mode & coupling & w5 & d1 & d2 & Hex & Hd1 & Hd2).
  rewrite (get_triggerConfig_run _ _ _ _ _ _ _ _ _ Hex Hd1 Hd2) in Hget.
  injection Hget as <- <-.
  cbn [log trigger_id trigger_triggerConfDict heap].
  repeat split; try done.
  rewrite lookup_total_insert_eq, !dom_union_L.
  rewrite (trigger_setup_of_reply_dom _ _ Hd1), (trigger_level_get_process_dom _ _ Hd2).
  rewrite trigger_slope_get_process_dom, trigger_mode_get_process_dom,
    trigger_coupling_get_process_dom.
  unfold config_keys. set_solver.
Qed.

(** ** The write transaction *)

Lemma foreach_nil {A} (body : A → M W unit) st : foreach [] body st = (Ok tt, st).
Proof. done. Qed.

Lemma set_id_from_run kwargs (st : driver W) :
  set_id_from kwargs st =
    (Ok tt, Driver (adapter st) (log st) (heap st) (id_after kwargs st)
                   (trigger_triggerConfDict st)).
Proof.
  unfold set_id_from, id_after. destruct st.
  by destruct (kwargs_get kwargs "source") as [[]|].
Qed.

Lemma set_triggerConfig_run kwargs st :
  set_triggerConfig kwargs st =
    match get_triggerConfig st with
    | (Raise e, st1) => (Raise e, st1)
    | (Ok x, st1) =>
        let st1' := Driver (adapter st1) (log st1) (heap st1) (id_after kwargs st1)
                           (trigger_triggerConfDict st1) in
        match changed_keys (heap st1 !!! x) kwargs kwargs.*1 with
        | Raise e => (Raise e, st1')
        | Ok changed =>
            match foreach changed (set_changed x kwargs) st1' with
            | (Raise e, st2) => (Raise e, st2)
            | (Ok _, st2) =>
                match foreach (processToChange changed) (write_process x) st2 with
                | (Raise e, st3) => (Raise e, st3)
                | (Ok _, st3) =>
                    match get_triggerConfig st3 with
                    | (Raise e, st4) => (Raise e, st4)
                    | (Ok y, st4) =>
                        (Ok (dict_eq (heap st4) y x),
                         Driver (adapter st4) (log st4) (heap st4) (trigger_id st4)
                                (Some y))
                    end
                end
            end
        end
    end.
Proof.
  unfold set_triggerConfig. rewrite bind_unfold.
  destruct (get_triggerConfig st) as [[x|e] st1]; [|done].
  rewrite bind_unfold, set_id_from_run. cbn zeta.
  set (st1' := Driver _ _ _ (id_after kwargs st1) _).
  rewrite bind_unfold. unfold gets at 1. cbn beta iota. cbn [heap st1'].
  rewrite bind_unfold. unfold lift at 1. cbn beta iota.
  destruct (changed_keys _ _ _) as [changed|e]; [|done].
  rewrite bind_unfold.
  destruct (foreach changed _ st1') as [[[]|e] st2]; [|done].
  rewrite bind_unfold.
  destruct (foreach (processToChange changed) _ st2) as [[[]|e] st3]; [|done].
  rewrite bind_unfold.
  destruct (get_triggerConfig st3) as [[y|e] st4]; [|done].
  done.
Qed.

Lemma preserves_set_changed {C} (f : driver W → C) x kwargs :
  (∀ a l h h' i c, f (Driver a l h i c) = f (Driver a l h' i c)) →
  ∀ key, preserves f (set_changed x kwargs key).
Proof.
  intros Hf key [a l h i c]. unfold set_changed.
  destruct (kwargs_get kwargs key); [|done]. apply Hf.
Qed.

Lemma preserves_write_process {C} (f : driver W → C) x :
  (∀ a a' l l' h i c, f (Driver a l h i c) = f (Driver a' l' h i c)) →
  ∀ key, preserves f (write_process x key).
Proof.
  intros Hf key [a l h i c]. unfold write_process, trigger_write.
  msimpl. destruct (setProcesses _ _); [|done]. apply Hf.
Qed.

Lemma set_changed_attr x kwargs key :
  preserves trigger_triggerConfDict (set_changed (W:=W) x kwargs key).
Proof. by apply preserves_set_changed. Qed.

Lemma set_changed_id x kwargs key :
  preserves trigger_id (set_changed (W:=W) x kwargs key).
Proof. by apply preserves_set_changed. Qed.

Lemma write_process_attr x key : preserves trigger_triggerConfDict (write_process x key).
Proof. by apply preserves_write_process. Qed.

Lemma write_process_id x key : preserves trigger_id (write_process x key).
Proof. by apply preserves_write_process. Qed.

(** Whatever happens in between, the dictionary that the second read
    returns is the one that the first read returned. *)
Lemma set_triggerConfig_aliases kwargs st x st1 changed st2 st3 r2 r3 y st4 :
  get_triggerConfig st = (Ok x, st1) →
  foreach changed (set_changed x kwargs)
    (Driver (adapter st1) (log st1) (heap st1) (id_after kwargs st1)
            (trigger_triggerConfDict st1)) = (r2, st2) →
  foreach (processToChange changed) (write_process x) st2 = (r3, st3) →
  get_triggerConfig st3 = (Ok y, st4) →
  y = x.
Proof.
  intros Hget1 Hloop1 Hloop2 Hget2.
  destruct (get_triggerConfig_ok_frame _ _ _ Hget1) as (-> & _ & _ & Hattr1 & _).
  destruct (get_triggerConfig_ok_frame _ _ _ Hget2) as (-> & _).
  unfold self_triggerConfDict. f_equal.
  pose proof (preserves_foreach trigger_triggerConfDict (processToChange changed)
                (write_process (self_triggerConfDict st))
                (write_process_attr _) st2) as H3.
  rewrite Hloop2 in H3. cbn [snd] in H3. rewrite H3.
  pose proof (preserves_foreach trigger_triggerConfDict changed
                (set_changed (self_triggerConfDict st) kwargs)
                (set_changed_attr _ _)
                (Driver (adapter st1) (log st1) (heap st1) (id_after kwargs st1)
                        (trigger_triggerConfDict st1))) as H2.
  rewrite Hloop1 in H2. cbn [snd trigger_triggerConfDict] in H2. by rewrite H2.
Qed.

Lemma dict_eq_same h x : dict_eq h x x = true.
Proof. unfold dict_eq. by case_decide. Qed.

(** Whenever [set_triggerConfig] returns, it returns true: the local
    dictionary and the cached one are the same object. *)
Lemma set_triggerConfig_flag kwargs st b st' :
  set_triggerConfig kwargs st = (Ok b, st') → b = true.
Proof.
  rewrite set_triggerConfig_run.
  destruct (get_triggerConfig st) as [[x|e] st1] eqn:Hget1; [|done]. cbn zeta.
  destruct (changed_keys _ _ _) as [changed|e]; [|done].
  destruct (foreach changed _ _) as [[[]|e] st2] eqn:Hloop1; [|done].
  destruct (foreach (processToChange changed) _ _) as [[[]|e] st3] eqn:Hloop2; [|done].
  destruct (get_triggerConfig st3) as [[y|e] st4] eqn:Hget2; [|done].
  intros [= <- _].
  rewrite (set_triggerConfig_aliases _ _ _ _ _ _ _ _ _ _ _ Hget1 Hloop1 Hloop2 Hget2).
  apply dict_eq_same.
Qed.

Lemma kwargs_get_is_Some (kwargs : list (string * value)) key :
  key ∈ kwargs.*1 → is_Some (kwargs_get kwargs key).
Proof.
  induction kwargs as [|[k v] kwargs IH]; cbn [fmap list_fmap kwargs_get fst].
  - by intros ?%elem_of_nil.
  - intros Hin. case_decide; [done|].
    apply elem_of_cons in Hin as [->|Hin]; [done|]. by apply IH.
Qed.

Lemma changed_keys_unknown (d : gmap string value) kwargs keys :
  keys ⊆ kwargs.*1 →
  (∃ key, key ∈ keys ∧ d !! key = None) →
  ∃ key, key ∈ keys ∧ d !! key = None
         ∧ changed_keys d kwargs keys = Raise (KeyError key).
Proof.
  induction keys as [|key keys IH]; intros Hsub (bad & Hbad & Hnone).
  - by apply elem_of_nil in Hbad.
  - cbn [changed_keys]. destruct (d !! key) as [old|] eqn:Hold.
    + destruct (kwargs_get_is_Some kwargs key) as [new ->]; [set_solver|].
      destruct IH as (key' & Hin & Hnone' & ->); [set_solver| |].
      * exists bad. split; [|done].
        apply elem_of_cons in Hbad as [->|]; [congruence|done].
      * exists key'. split; [set_solver|done].
    + exists key. split; [set_solver|done].
Qed.

(** C9: when the first read succeeds and the cache holds no key besides the
    eight of a configuration, a call of [set_triggerConfig] with a key
    that is none of the eight raises [KeyError] for such a key; the
    traffic of the call is the five queries of the first read and
    nothing else, so no set command is written. *)
Theorem set_triggerConfig_unknown_key kwargs st x st1 :
  get_triggerConfig st = (Ok x, st1) →
  dom (heap st !!! self_triggerConfDict st) ⊆ config_keys →
  (∃ key, key ∈ kwargs.*1 ∧ (key ∉ config_keys)) →
  ∃ key, key ∈ kwargs.*1 ∧ (key ∉ config_keys)
    ∧ (set_triggerConfig kwargs st).1 = Raise (KeyError key)
    ∧ log (set_triggerConfig kwargs st).2 = log st ++ trigger_queries.
Proof.
  intros Hget Hcache (bad & Hbad & Hunknown).
  destruct (get_triggerConfig_ok_frame _ _ _ Hget) as (-> & Hlog & _ & _ & Hdom).
  destruct (changed_keys_unknown (heap st1 !!! self_triggerConfDict st) kwargs kwargs.*1)
    as (key & Hin & Hnone & Hraise); [done| |].
  { exists bad. split; [done|]. apply not_elem_of_dom. rewrite Hdom. set_solver. }
  exists key. split; [done|]. split.
  { apply not_elem_of_dom in Hnone. rewrite Hdom in Hnone. set_solver. }
  rewrite set_triggerConfig_run, Hget. cbn zeta. rewrite Hraise. done.
Qed.

(** C10 (amended): when the first read succeeds and the keyword arguments
    give a "source" that is not [None], the id of the trigger channel is
    that value when the call ends, however it ends.  When "source" is the
    only argument and equals the source that was read, no command is
    written (the traffic of the call consists of queries and their
    replies), and the id is overwritten all the same.  The guard of line
    284 makes the condition on [None] necessary: a call with
    [source=None] leaves the id as it was (see the run on the simulated
    oscilloscope below). *)
Theorem set_triggerConfig_source_id kwargs st x st1 source :
  get_triggerConfig st = (Ok x, st1) →
  kwargs_get kwargs "source" = Some source →
  source ≠ VNone →
  trigger_id (set_triggerConfig kwargs st).2 = source
  ∧ ∀ baseline,
      kwargs = [("source", source)] →
      (heap st1 !!! x) !! "source" = Some baseline →
      py_ne baseline source = false →
      ∃ evs, log (set_triggerConfig kwargs st).2 = log st ++ evs
             ∧ Forall query_event evs.
Proof.
  intros Hget Hsource Hnone.
  assert (Hid : id_after kwargs st1 = source).
  { unfold id_after. rewrite Hsource. by destruct source. }
  rewrite set_triggerConfig_run, Hget. cbn zeta. rewrite Hid. split.
  - destruct (changed_keys _ _ _) as [changed|e]; [|done].
    pose proof (preserves_foreach trigger_id changed (set_changed x kwargs)
                  (set_changed_id _ _)
                  (Driver (adapter st1) (log st1) (heap st1) source
                          (trigger_triggerConfDict st1))) as H2.
    destruct (foreach changed _ _) as [[[]|e] st2]; cbn [snd trigger_id] in *; [|done].
    pose proof (preserves_foreach trigger_id (processToChange changed) (write_process x)
                  (write_process_id _) st2) as H3.
    destruct (foreach (processToChange changed) _ _) as [[[]|e] st3];
      cbn [snd] in *; [|congruence].
    pose proof (get_triggerConfig_id st3) as H4.
    destruct (get_triggerConfig st3) as [[y|e] st4]; cbn [snd trigger_id] in *; congruence.
  - intros baseline -> Hbase Hsame.
    destruct (get_triggerConfig_ok_frame _ _ _ Hget) as (_ & Hlog & _).
    cbn [fmap list_fmap fst changed_keys kwargs_get]. rewrite Hbase.
    rewrite decide_True by done. rewrite Hsame.
    rewrite foreach_nil. cbv beta iota.
    change (processToChange []) with (@nil string). rewrite foreach_nil.
    cbv beta iota.
    destruct (only_queries_get_triggerConfig
                (Driver (adapter st1) (log st1) (heap st1) source
                        (trigger_triggerConfDict st1))) as (evs & Hlog2 & Hevs).
    exists (trigger_queries ++ evs). split.
    + revert Hlog2.
      destruct (get_triggerConfig (Driver _ _ _ _ _)) as [[y|e] st4]; cbn [snd log];
        intros ->; by rewrite Hlog, <- app_assoc.
    + apply Forall_app. split; [|done]. by apply Forall_forall.
Qed.

(** C6: when both reads succeed, [set_triggerConfig] without arguments
    returns true, and its traffic is the five queries of the first read
    followed by the five queries of the second: no set command is
    written. *)
Theorem set_triggerConfig_empty st x st1 y st2 :
  get_triggerConfig st = (Ok x, st1) →
  get_triggerConfig st1 = (Ok y, st2) →
  (set_triggerConfig [] st).1 = Ok true
  ∧ log (set_triggerConfig [] st).2 = log st ++ trigger_queries ++ trigger_queries.
Proof.
  intros Hget1 Hget2.
  destruct (get_triggerConfig_ok_frame _ _ _ Hget1) as (Hx & Hlog1 & _ & Hattr & _).
  destruct (get_triggerConfig_ok_frame _ _ _ Hget2) as (Hy & Hlog2 & _).
  rewrite set_triggerConfig_run, Hget1. cbn zeta.
  cbn [fmap list_fmap changed_keys]. rewrite foreach_nil. cbv beta iota.
  change (processToChange []) with (@nil string). rewrite foreach_nil.
    cbv beta iota.
  replace (Driver (adapter st1) (log st1) (heap st1) (id_after [] st1)
                  (trigger_triggerConfDict st1)) with st1 by by destruct st1.
  rewrite Hget2. cbn [fst snd log].
  assert (y = x) as ->.
  { rewrite Hx, Hy. unfold self_triggerConfDict. by rewrite Hattr. }
  rewrite dict_eq_same, Hlog2, Hlog1, <- app_assoc. done.
Qed.

(** ** The keys of the cache *)

Lemma maintains_bind {A B} (I : driver W → Prop) (m : M W A) (k : A → M W B) :
  maintains I m → (∀ a, maintains I (k a)) → maintains I (m ≫= k).
Proof.
  intros Hm Hk st HI. rewrite bind_unfold. specialize (Hm st HI).
  destruct (m st) as [[a|e] st1]; cbn [snd] in *; [|done].
  by apply Hk.
Qed.

Lemma maintains_foreach {A} (I : driver W → Prop) (l : list A) (body : A → M W unit) :
  (∀ a, a ∈ l → maintains I (body a)) → maintains I (foreach l body).
Proof.
  induction l as [|a l IH]; intros Hbody; [by intros st|].
  cbn [foreach]. apply maintains_bind; [apply Hbody; set_solver|].
  intros _. apply IH. intros b Hb. apply Hbody. set_solver.
Qed.

Lemma cache_ok_update_from (property : M W (gmap string value)) :
  preserves heap property → preserves trigger_triggerConfDict property →
  (∀ st d, (property st).1 = Ok d → dom d ⊆ config_keys) →
  maintains cache_ok (update_from property).
Proof.
  intros Hheap Hattr Hdom st HI. rewrite update_from_run.
  specialize (Hheap st). specialize (Hattr st). specialize (Hdom st).
  destruct (property st) as [[other|e] st1]; cbn [fst snd] in *.
  - unfold cache_ok, self_triggerConfDict in *.
    cbn [heap trigger_triggerConfDict]. rewrite Hattr, Hheap.
    rewrite lookup_total_insert_eq, dom_union_L.
    specialize (Hdom other eq_refl). set_solver.
  - unfold cache_ok in *. by rewrite Hattr, Hheap.
Qed.

Lemma get_triggerConfig_cache_ok : maintains cache_ok get_triggerConfig.
Proof.
  unfold get_triggerConfig.
  repeat (apply maintains_bind; [apply cache_ok_update_from|intros _]).
  16: by intros st.
  all: try (intros [a l h i c]; first
    [ by rewrite trigger_setup_run | by rewrite trigger_level_run
    | by rewrite trigger_slope_run | by rewrite trigger_mode_run
    | by rewrite trigger_coupling_run ]).
  - intros st d. rewrite trigger_setup_run. cbn [fst].
    intros ->%trigger_setup_of_reply_dom. unfold config_keys. set_solver.
  - intros st d. rewrite trigger_level_run. cbn [fst].
    intros ->%trigger_level_get_process_dom. unfold config_keys. set_solver.
  - intros st d. rewrite trigger_slope_run. cbn [fst]. intros [= <-].
    rewrite trigger_slope_get_process_dom. unfold config_keys. set_solver.
  - intros st d. rewrite trigger_mode_run. cbn [fst]. intros [= <-].
    rewrite trigger_mode_get_process_dom. unfold config_keys. set_solver.
  - intros st d. rewrite trigger_coupling_run. cbn [fst]. intros [= <-].
    rewrite trigger_coupling_get_process_dom. unfold config_keys. set_solver.
Qed.

Lemma changed_keys_known (d : gmap string value) kwargs keys changed :
  changed_keys d kwargs keys = Ok changed → ∀ key, key ∈ changed → key ∈ dom d.
Proof.
  revert changed. induction keys as [|k keys IH]; intros changed; cbn [changed_keys].
  - intros [= <-] key. by intros ?%elem_of_nil.
  - destruct (d !! k) as [old|] eqn:Hold; [|done].
    destruct (kwargs_get kwargs k) as [new|]; [|done].
    destruct (changed_keys d kwargs keys) as [l|]; [|done].
    intros [= <-] key Hkey.
    destruct (py_ne old new); [|by eapply IH].
    apply elem_of_cons in Hkey as [->|Hkey]; [|by eapply IH].
    by apply elem_of_dom.
Qed.

Lemma cache_ok_set_changed x kwargs key :
  key ∈ config_keys → maintains cache_ok (set_changed (W:=W) x kwargs key).
Proof.
  intros Hkey [a l h i c] HI. unfold set_changed.
  destruct (kwargs_get kwargs key) as [v|]; [|done].
  unfold cache_ok in *. cbn [snd heap_setitem modify heap trigger_triggerConfDict] in *.
  unfold heap_setitem, modify. cbn [snd heap trigger_triggerConfDict].
  destruct (decide (x = default TriggerChannel_triggerConfDict c)) as [->|Hne].
  - rewrite lookup_total_insert_eq, dom_insert_L. set_solver.
  - by rewrite lookup_total_insert_ne.
Qed.

Lemma cache_ok_write_process x key : maintains cache_ok (write_process x key).
Proof.
  intros [a l h i c] HI. unfold write_process, trigger_write. msimpl.
  by destruct (setProcesses _ _).
Qed.

(** The cached configuration never holds a key besides the eight: a new
    driver object has an empty cache ([cache_ok_init] below), and
    [set_triggerConfig] keeps the property however it ends. *)
Theorem set_triggerConfig_cache_ok kwargs (st : driver W) :
  cache_ok st → cache_ok (set_triggerConfig kwargs st).2.
Proof.
  intros HI. rewrite set_triggerConfig_run.
  pose proof (get_triggerConfig_cache_ok st HI) as H1.
  destruct (get_triggerConfig st) as [[x|e] st1] eqn:Hget1; cbn [snd] in H1; [|done].
  destruct (get_triggerConfig_ok_frame _ _ _ Hget1) as (Hx & _ & _ & Hattr & _).
  assert (Hx1 : x = default TriggerChannel_triggerConfDict (trigger_triggerConfDict st1)).
  { rewrite Hx. unfold self_triggerConfDict. by rewrite Hattr. }
  cbn zeta.
  set (st1' := Driver _ _ _ (id_after kwargs st1) _).
  assert (H1' : cache_ok st1') by done.
  destruct (changed_keys _ _ _) as [changed|e] eqn:Hchanged; [|done].
  assert (H2 : maintains cache_ok (foreach changed (set_changed (W:=W) x kwargs))).
  { apply maintains_foreach. intros key Hkey. apply cache_ok_set_changed.
    apply H1. rewrite <- Hx1. by eapply changed_keys_known. }
  specialize (H2 st1' H1').
  destruct (foreach changed _ st1') as [[[]|e] st2]; cbn [snd] in *; [|done].
  pose proof (maintains_foreach cache_ok (processToChange changed) (write_process x)
                (λ key _, cache_ok_write_process x key) st2 H2) as H3.
  destruct (foreach (processToChange changed) _ st2) as [[[]|e] st3];
    cbn [snd] in *; [|done].
  pose proof (get_triggerConfig_cache_ok st3 H3) as H4.
  pose proof (get_triggerConfig_ok_frame st3) as Hframe.
  destruct (get_triggerConfig st3) as [[y|e] st4]; cbn [snd] in *; [|done].
  destruct (Hframe _ _ eq_refl) as (Hy & _ & _ & Hattr4 & _).
  unfold cache_ok in *. cbn [heap trigger_triggerConfDict default].
  rewrite Hattr4 in H4. by rewrite Hy.
Qed.

Lemma cache_ok_init (w : W) : cache_ok (SDS1072CML_init w).
Proof.
  unfold cache_ok, SDS1072CML_init. cbn [heap trigger_triggerConfDict default].
  rewrite lookup_total_singleton_eq, dom_empty_L. apply empty_subseteq.
Qed.

Lemma run_ok {A} (m : M W A) st a : (m st).1 = Ok a → m st = (Ok a, (m st).2).
Proof. destruct (m st) as [r st']. cbn [fst snd]. by intros ->. Qed.
End Properties.

(** ** Runs on the simulated oscilloscope *)

(** C3 (the code departs from the claim): on a host whose C [long] has 8
    bytes, [get_desc] takes the number of points from the 8 bytes at +60
    to +67.  For a reply of 367 bytes that holds 4 at +60 and 1 in the
    next field of the descriptor, at +64, it returns 4294967300 points
    where the layout has 4; gain, offset, interval and time offset are
    those of the layout. *)
Lemma get_desc_lp64_reads_eight_bytes :
  let reply := sc_descriptor (bench_scope true 1) in
  (@get_desc host_lp64 scope _ "1" (SDS1072CML_init (bench_scope true 1))).1
    = Ok (Descriptor 4294967300 0.5 0.25 0.125 (-0.5) 21)
  ∧ descriptor_layout reply = Descriptor 4 0.5 0.25 0.125 (-0.5) 21
  ∧ length reply = 367%nat.
Proof. vm_compute. done. Qed.

(** C1 (the code departs from the claim): on an oscilloscope in AUTO mode
    that ignores every set command, [set_triggerConfig(mode="NORM")]
    writes TRMD NORM between its two reads, the oscilloscope stays in
    AUTO, the second read stores AUTO in the cache, and the call returns
    true. *)
Lemma set_triggerConfig_true_on_ignored_change :
  let scope0 := bench_scope false 0 in
  let run := @set_triggerConfig host_lp64 scope _ [("mode", VStr "NORM")]
               (SDS1072CML_init scope0) in
  sc_mode scope0 = "AUTO"
  ∧ run.1 = Ok true
  ∧ log run.2 = trigger_queries ++ [EvWrite "TRMD NORM"] ++ trigger_queries
  ∧ sc_mode (adapter run.2) = "AUTO"
  ∧ (heap run.2 !!! TriggerChannel_triggerConfDict) !! "mode" = Some (VStr "AUTO").
Proof. vm_compute. done. Qed.

(** C2 (the code departs from the claim): on a new driver object and an
    oscilloscope whose trigger source is C1, [set_triggerConfig(type="GLIT")]
    writes one setup command, TRSE GLIT,SR,,HT,TI,HV,100NS.  Type, hold
    type and hold value are those of the merged configuration; the source
    field is the id of the trigger channel, which is empty, and not the
    source C1 that was read. *)
Lemma set_triggerConfig_type_only_blank_source :
  let scope0 := bench_scope true 0 in
  let run := @set_triggerConfig host_lp64 scope _ [("type", VStr "GLIT")]
               (SDS1072CML_init scope0) in
  sc_source scope0 = "C1"
  ∧ log run.2 = trigger_queries ++ [EvWrite "TRSE GLIT,SR,,HT,TI,HV,100NS"]
                ++ trigger_queries.
Proof. vm_compute. done. Qed.

Lemma get_triggerConfig_merges_witness :
  let st := SDS1072CML_init (bench_scope true 0) in
  (@get_triggerConfig host_lp64 scope _ st).1 = Ok (self_triggerConfDict st)
  ∧ log (@get_triggerConfig host_lp64 scope _ st).2 = log st ++ trigger_queries.
Proof.
  intros st.
  assert (E1 : trigger_exchanges (adapter st)
               = (("TRSE EDGE,SR,C1,HT,TI,HV,100NS", "C1:TRLV 2.50E-01 V",
                   "C1:TRSL POS", "TRMD AUTO", "C1:TRCP DC"),
                  (trigger_exchanges (adapter st)).2)).
  { vm_compute. reflexivity. }
  assert (E2 : trigger_setup_of_reply "TRSE EDGE,SR,C1,HT,TI,HV,100NS"
               = Ok {[ "type" := VStr "EDGE"; "source" := VStr "C1";
                       "hold_type" := VStr "TI"; "hold_value1" := VStr "100NS" ]}).
  { reflexivity. }
  assert (E3 : @trigger_level_get_process host_lp64 "C1:TRLV 2.50E-01 V"
               = Ok {[ "source" := VStr "C1"; "level" := VFloat 0.25 ]}).
  { reflexivity. }
  destruct (@get_triggerConfig_merges host_lp64 scope _ st _ _ _ _ _ _ _ _ E1 E2 E3)
    as [Hrun _].
  rewrite Hrun. split; reflexivity.
Defined.

Lemma get_waveform_samples_witness :
  let st := SDS1072CML_init (bench_scope true 0) in
  ∃ timetags waveform,
    (@get_waveform host_long4 scope _ "1" st).1 = Ok (timetags, waveform)
    ∧ length timetags = 4%nat ∧ length waveform = 4%nat
    ∧ waveform !! 0%nat = Some (-64.25)%float
    ∧ timetags !! 3%nat = Some (-0.125)%float.
Proof.
  intros st.
  assert (E1 : @get_desc host_long4 scope _ "1" st
               = (Ok (Descriptor 4 0.5 0.25 0.125 (-0.5) 21),
                  (@get_desc host_long4 scope _ "1" st).2)).
  { apply run_ok. vm_compute. reflexivity. }
  assert (E2 : exchange_bytes ("C" +:+ "1" +:+ ":WF? DAT2")
                 (adapter (@get_desc host_long4 scope _ "1" st).2)
               = (replicate 21 x00 ++ [x80; x00; x7f; xff],
                  (exchange_bytes ("C" +:+ "1" +:+ ":WF? DAT2")
                     (adapter (@get_desc host_long4 scope _ "1" st).2)).2)).
  { vm_compute. reflexivity. }
  destruct (@get_waveform_samples host_long4 scope _ "1" st _ _ _ _ E1 E2)
    as (timetags & waveform & Hrun & Htime & Hwave & Hsamples).
  { vm_compute. discriminate. }
  { vm_compute. discriminate. }
  exists timetags, waveform. split; [exact Hrun|]. split; [exact Htime|].
  split; [exact Hwave|].
  destruct (Hsamples 0%nat) as (b0 & Hb0 & Hw0 & _); [vm_compute; lia|].
  destruct (Hsamples 3%nat) as (b3 & _ & _ & Ht3); [vm_compute; lia|].
  injection Hb0 as <-. split; [exact Hw0|exact Ht3].
Defined.

Lemma set_triggerConfig_empty_witness :
  let st := SDS1072CML_init (bench_scope true 0) in
  (@set_triggerConfig host_lp64 scope _ [] st).1 = Ok true
  ∧ log (@set_triggerConfig host_lp64 scope _ [] st).2
    = log st ++ trigger_queries ++ trigger_queries.
Proof.
  intros st.
  assert (E1 : @get_triggerConfig host_lp64 scope _ st
               = (Ok TriggerChannel_triggerConfDict,
                  (@get_triggerConfig host_lp64 scope _ st).2)).
  { apply run_ok. vm_compute. reflexivity. }
  assert (E2 : @get_triggerConfig host_lp64 scope _
                 (@get_triggerConfig host_lp64 scope _ st).2
               = (Ok TriggerChannel_triggerConfDict,
                  (@get_triggerConfig host_lp64 scope _
                     (@get_triggerConfig host_lp64 scope _ st).2).2)).
  { apply run_ok. vm_compute. reflexivity. }
  exact (@set_triggerConfig_empty host_lp64 scope _ st _ _ _ _ E1 E2).
Defined.

Lemma set_triggerConfig_unknown_key_witness :
  let st := SDS1072CML_init (bench_scope true 0) in
  let kwargs := [("mode", VStr "NORM"); ("bandwidth", VStr "20M")] in
  ∃ key, key ∈ kwargs.*1 ∧ (key ∉ config_keys)
    ∧ (@set_triggerConfig host_lp64 scope _ kwargs st).1 = Raise (KeyError key)
    ∧ log (@set_triggerConfig host_lp64 scope _ kwargs st).2 = log st ++ trigger_queries.
Proof.
  intros st kwargs.
  assert (E1 : @get_triggerConfig host_lp64 scope _ st
               = (Ok TriggerChannel_triggerConfDict,
                  (@get_triggerConfig host_lp64 scope _ st).2)).
  { apply run_ok. vm_compute. reflexivity. }
  apply (@set_triggerConfig_unknown_key host_lp64 scope _ kwargs st _ _ E1).
  - apply (cache_ok_init (bench_scope true 0)).
  - exists "bandwidth". split.
    + apply list_elem_of_further, list_elem_of_here.
    + unfold config_keys. rewrite !not_elem_of_union, !not_elem_of_singleton.
      repeat split; discriminate.
Defined.

Lemma set_triggerConfig_source_id_witness :
  let st := SDS1072CML_init (bench_scope true 0) in
  let kwargs := [("source", VStr "C1")] in
  trigger_id st = VStr ""
  ∧ trigger_id (@set_triggerConfig host_lp64 scope _ kwargs st).2 = VStr "C1"
  ∧ ∃ evs, log (@set_triggerConfig host_lp64 scope _ kwargs st).2 = log st ++ evs
           ∧ Forall query_event evs.
Proof.
  intros st kwargs.
  assert (E1 : @get_triggerConfig host_lp64 scope _ st
               = (Ok TriggerChannel_triggerConfDict,
                  (@get_triggerConfig host_lp64 scope _ st).2)).
  { apply run_ok. vm_compute. reflexivity. }
  destruct (@set_triggerConfig_source_id host_lp64 scope _ kwargs st _ _ (VStr "C1") E1)
    as [Hid Hquiet]; [reflexivity|discriminate|].
  split; [reflexivity|]. split; [exact Hid|].
  apply (Hquiet (VStr "C1")); [reflexivity| |reflexivity].
  vm_compute. reflexivity.
Defined.

(** C10 as worded does not hold for [source=None]: the key "source" is
    among the keyword arguments, the call returns true, and the id of the
    trigger channel is still the empty text of a new driver object, not
    [None].  The cache entry "source" differs from [None], so the setup
    command is written, with the empty id in its source field. *)
Lemma set_triggerConfig_source_None_keeps_id :
  let st := SDS1072CML_init (bench_scope true 0) in
  let kwargs := [("source", VNone)] in
  let run := @set_triggerConfig host_lp64 scope _ kwargs st in
  "source" ∈ kwargs.*1
  ∧ kwargs_get kwargs "source" = Some VNone
  ∧ trigger_id st = VStr ""
  ∧ run.1 = Ok true
  ∧ trigger_id run.2 = VStr ""
  ∧ trigger_id run.2 ≠ VNone
  ∧ log run.2 = trigger_queries ++ [EvWrite "TRSE EDGE,SR,,HT,TI,HV,100NS"]
                ++ trigger_queries.
Proof.
  vm_compute. repeat split; try reflexivity; try discriminate.
  apply list_elem_of_here.
Qed.

Lemma set_triggerConfig_flag_witness :
  match (@set_triggerConfig host_lp64 scope _ [("mode", VStr "NORM")]
           (SDS1072CML_init (bench_scope false 0))).1 with
  | Ok b => b = true
  | Raise _ => False
  end.
Proof.
  destruct (@set_triggerConfig host_lp64 scope _ [("mode", VStr "NORM")]
              (SDS1072CML_init (bench_scope false 0))) as [[b|e] st'] eqn:E;
    cbn [fst].
  - exact (@set_triggerConfig_flag host_lp64 scope _ _ _ _ _ E).
  - vm_compute in E. discriminate.
Defined.

Lemma get_desc_layout_long4_witness :
  let st := SDS1072CML_init (bench_scope true 1) in
  (@get_desc host_long4 scope _ "1" st).1
  = Ok (descriptor_layout (sc_descriptor (bench_scope true 1))).
Proof.
  intros st.
  assert (E : exchange_bytes ("C" +:+ "1" +:+ ":WF? DESC") (adapter st)
              = (sc_descriptor (bench_scope true 1),
                 (exchange_bytes ("C" +:+ "1" +:+ ":WF? DESC") (adapter st)).2)).
  { vm_compute. reflexivity. }
  apply (@get_desc_layout_long4 host_long4 scope _ "1" st _ _ eq_refl eq_refl E).
  vm_compute. lia.
Defined.

Lemma set_triggerConfig_cache_ok_witness :
  cache_ok (@set_triggerConfig host_lp64 scope _ [("mode", VStr "NORM")]
              (SDS1072CML_init (bench_scope true 0))).2.
Proof.
  apply (@set_triggerConfig_cache_ok host_lp64 scope _), cache_ok_init.
Defined.

(** The replies of the simulated oscilloscope parse the way Python parses
    them. *)
Example trigger_replies_parse :
  trigger_setup_of_reply "TRSE EDGE,SR,C1,HT,TI,HV,100NS"
  = Ok {[ "type" := VStr "EDGE"; "source" := VStr "C1";
          "hold_type" := VStr "TI"; "hold_value1" := VStr "100NS" ]}
  ∧ trigger_setup_of_reply "TRSE EDGE,SR,C1" = Raise IndexError
  ∧ trigger_setup_of_reply "EDGE,SR,C1,HT,TI,HV,100NS" = Raise IndexError
  ∧ trigger_slope_get_process "C1:TRSL POS"
    = {[ "source" := VStr "C1"; "slope" := VStr "POS" ]}
  ∧ trigger_mode_get_process "TRMD AUTO" = {[ "mode" := VStr "AUTO" ]}
  ∧ @trigger_level_get_process host_lp64 "C1:TRLV 2.50E-01 V"
    = Ok {[ "source" := VStr "C1"; "level" := VFloat 0.25 ]}
  ∧ @trigger_level_get_process host_lp64 "C1:TRLV high" = Raise ValueError.
Proof. repeat split; reflexivity. Qed.

(** [str.split] on the shapes that matter: no separator, a separator at
    either end, two in a row. *)
Example split_like_python :
  split_all "," ",a,,b," = [""; "a"; ""; "b"; ""]
  ∧ split_all "," "" = [""]
  ∧ split1 " " "TRMD AUTO" = ("TRMD", Some "AUTO")
  ∧ split1_last " " "AUTO" = "AUTO"
  ∧ split1_last " " "a b c" = "b c"
  ∧ drop_last 2 "2.50E-01 V" = "2.50E-01"
  ∧ drop_last 2 "V" = "".
Proof. repeat split; reflexivity. Qed.

(** Bit patterns of binary32 and binary64 numbers and their floats. *)
Example float_of_bits_values :
  float_of_bits32 0x3F800000 = 1%float
  ∧ float_of_bits32 0xBF000000 = (-0.5)%float
  ∧ float_of_bits32 0x3DCCCCCD = 0x1.99999ap-4%float
  ∧ float_of_bits32 1 = 0x1p-149%float
  ∧ float_of_bits32 0x80000000 = (-0)%float
  ∧ float_of_bits32 0x7F800000 = infinity
  ∧ float_of_bits64 0x3FF0000000000000 = 1%float
  ∧ float_of_bits64 0xBFE0000000000000 = (-0.5)%float
  ∧ float_of_bits64 1 = 0x1p-1074%float.
Proof. repeat split; vm_compute; reflexivity. Qed.

(** The readiness flag is true for the status Stop, Ready or Armed, and
    false for Trig'd and for anything else. *)
Example is_ready_mapping :
  is_ready_get_process "SAST Stop" = true
  ∧ is_ready_get_process "SAST Ready" = true
  ∧ is_ready_get_process "SAST Armed" = true
  ∧ is_ready_get_process "SAST Trig'd" = false
  ∧ is_ready_get_process "SAST Auto" = false.
Proof. repeat split; vm_compute; reflexivity. Qed.

(** On an oscilloscope in AUTO mode that adopts set commands,
    [set_triggerConfig(mode="NORM")] writes the single command TRMD NORM
    between its two reads, the oscilloscope is in NORM mode afterwards,
    and the call returns true. *)
Example set_triggerConfig_adopted_change :
  let scope0 := bench_scope true 0 in
  let run := @set_triggerConfig host_lp64 scope _ [("mode", VStr "NORM")]
               (SDS1072CML_init scope0) in
  sc_mode scope0 = "AUTO"
  ∧ run.1 = Ok true
  ∧ log run.2 = trigger_queries ++ [EvWrite "TRMD NORM"] ++ trigger_queries
  ∧ sc_mode (adapter run.2) = "NORM"
  ∧ (heap run.2 !!! TriggerChannel_triggerConfDict) !! "mode" = Some (VStr "NORM").
Proof. vm_compute. done. Qed.

(** * More properties of the replies and of the transactions *)

Section Parsers.
Context `{Python}.

(** ** Replies and their parsers *)

Lemma append_nil (s : string) : "" +:+ s = s.
Proof. reflexivity. Qed.

Lemma append_cons (c : Ascii.ascii) (s t : string) :
  String c s +:+ t = String c (s +:+ t).
Proof. reflexivity. Qed.

Lemma append_assoc (a b c : string) : (a +:+ b) +:+ c = a +:+ b +:+ c.
Proof.
  induction a as [|x a IH]; rewrite ?append_nil, ?append_cons; [done|].
  by rewrite IH.
Qed.

Lemma append_nil_r (a : string) : a +:+ "" = a.
Proof.
  induction a as [|x a IH]; rewrite ?append_nil, ?append_cons; [done|].
  by rewrite IH.
Qed.

Lemma split1_at (sep : Ascii.ascii) (head rest : string) :
  has_char sep head = false →
  split1 sep (head +:+ String sep rest) = (head, Some rest).
Proof.
  induction head as [|c head IH]; rewrite ?append_nil, ?append_cons;
    cbn [has_char split1].
  - intros _. by rewrite Ascii.eqb_refl.
  - intros [Hc Hhead]%orb_false_iff. rewrite Hc, IH by done. done.
Qed.

Lemma split1_absent (sep : Ascii.ascii) (s : string) :
  has_char sep s = false → split1 sep s = (s, None).
Proof.
  induction s as [|c s IH]; cbn [has_char split1]; [done|].
  intros [Hc Hs]%orb_false_iff. by rewrite Hc, IH.
Qed.

Lemma split_all_at (sep : Ascii.ascii) (head rest : string) :
  has_char sep head = false →
  split_all sep (head +:+ String sep rest) = head :: split_all sep rest.
Proof.
  induction head as [|c head IH]; rewrite ?append_nil, ?append_cons;
    cbn [has_char split_all].
  - intros _. by rewrite Ascii.eqb_refl.
  - intros [Hc Hhead]%orb_false_iff. rewrite Hc, IH by done. done.
Qed.

Lemma split_all_absent (sep : Ascii.ascii) (s : string) :
  has_char sep s = false → split_all sep s = [s].
Proof.
  induction s as [|c s IH]; cbn [has_char split_all]; [done|].
  intros [Hc Hs]%orb_false_iff. by rewrite Hc, IH.
Qed.

Lemma substring_prefix (p u : string) :
  String.substring 0 (String.length p) (p +:+ u) = p.
Proof.
  induction p as [|c p IH]; rewrite ?append_nil, ?append_cons;
    cbn [String.length String.substring].
  - by destruct u.
  - by rewrite IH.
Qed.

Lemma length_append (p u : string) :
  String.length (p +:+ u) = (String.length p + String.length u)%nat.
Proof.
  induction p as [|c p IH]; rewrite ?append_nil, ?append_cons;
    cbn [String.length]; [done|]. by rewrite IH.
Qed.

Lemma drop_last_append (p u : string) :
  drop_last (String.length u) (p +:+ u) = p.
Proof.
  unfold drop_last. rewrite length_append.
  replace (String.length p + String.length u - String.length u)%nat
    with (String.length p) by lia.
  apply substring_prefix.
Qed.

Lemma split1_last_at (head rest : string) :
  has_char " " head = false → split1_last " " (head +:+ String " " rest) = rest.
Proof. intros Hhead. unfold split1_last. by rewrite split1_at. Qed.

Lemma split1_first_at (sep : Ascii.ascii) (head rest : string) :
  has_char sep head = false → split1_first sep (head +:+ String sep rest) = head.
Proof. intros Hhead. unfold split1_first. by rewrite split1_at. Qed.

(** For every reply to SAST? made of a header without a space, one space
    and a status text, the readiness flag is true exactly when the status
    text is Stop, Ready or Armed; the header plays no part, and a status
    text that merely contains or is followed by one of the three words
    does not count. *)
Theorem is_ready_of_status (header status : string) :
  has_char " " header = false →
  is_ready_get_process (header +:+ " " +:+ status)
  = bool_decide (status ∈ ["Stop"; "Ready"; "Armed"]).
Proof.
  intros Hheader. unfold is_ready_get_process.
  rewrite append_cons, append_nil. by rewrite (split1_last_at header status).
Qed.

Lemma payload_number (header number : string) (unit : Ascii.ascii) :
  has_char " " header = false →
  drop_last 1 (split1_last " " (header +:+ " " +:+ number +:+ String unit ""))
  = number.
Proof.
  intros Hheader. rewrite append_cons, append_nil.
  rewrite (split1_last_at header (number +:+ String unit "")) by done.
  pose proof (drop_last_append number (String unit "")) as Hdrop.
  cbn [String.length] in Hdrop. by rewrite Hdrop.
Qed.

(** The [get_process] of [vertical_division] and of [timeDiv] reads a
    reply made of a header without a space, one space, a number and one
    more character as [float] of the number: the header and the last
    character (the unit) are dropped whatever they are, and a number that
    [float] does not accept is a [ValueError]. *)
Theorem vertical_division_of_reply (header number : string) (unit : Ascii.ascii) :
  has_char " " header = false →
  vertical_division_get_process (header +:+ " " +:+ number +:+ String unit "")
  = match float_of_str number with
    | Some x => Ok x
    | None => Raise ValueError
    end
  ∧ timeDiv_get_process (header +:+ " " +:+ number +:+ String unit "")
    = match float_of_str number with
      | Some x => Ok x
      | None => Raise ValueError
      end.
Proof.
  intros Hheader. unfold vertical_division_get_process, timeDiv_get_process.
  by rewrite payload_number.
Qed.

Lemma has_char_append (c : Ascii.ascii) (a b : string) :
  has_char c (a +:+ b) = has_char c a || has_char c b.
Proof.
  induction a as [|c' a IH]; rewrite ?append_nil, ?append_cons; cbn [has_char];
    [done|]. by rewrite IH, orb_assoc.
Qed.

(** The replies to TRSL?, TRCP?, TRMD? and TRLV? have the shape
    [source:mnemonic payload].  Slope and coupling take the payload (all
    of the text after the first space) and, as "source", the text before
    the first colon; mode takes the payload only; level takes the source
    and [float] of the payload without its last two characters, or raises
    [ValueError]. *)
Theorem trigger_fields_of_replies (source mnemonic payload : string) :
  has_char ":" source = false → has_char " " source = false →
  has_char " " mnemonic = false →
  trigger_slope_get_process (source +:+ ":" +:+ mnemonic +:+ " " +:+ payload)
  = {[ "source" := VStr source; "slope" := VStr payload ]}
  ∧ trigger_coupling_get_process (source +:+ ":" +:+ mnemonic +:+ " " +:+ payload)
    = {[ "source" := VStr source; "coupling" := VStr payload ]}
  ∧ trigger_mode_get_process (mnemonic +:+ " " +:+ payload)
    = {[ "mode" := VStr payload ]}
  ∧ ∀ number (u1 u2 : Ascii.ascii),
      trigger_level_get_process
        (source +:+ ":" +:+ mnemonic +:+ " " +:+ number +:+ String u1 (String u2 ""))
      = match float_of_str number with
        | Some x => Ok {[ "source" := VStr source; "level" := VFloat x ]}
        | None => Raise ValueError
        end.
Proof.
  intros Hcolon Hspace Hmnemonic.
  assert (Hfirst : ∀ rest, split1_first ":" (source +:+ ":" +:+ rest) = source).
  { intros rest. rewrite append_cons, append_nil. by apply split1_first_at. }
  assert (Hlast : ∀ rest,
    split1_last " " (source +:+ ":" +:+ mnemonic +:+ " " +:+ rest) = rest).
  { intros rest.
    replace (source +:+ ":" +:+ mnemonic +:+ " " +:+ rest)
      with ((source +:+ ":" +:+ mnemonic) +:+ String " " rest).
    - apply split1_last_at. rewrite !has_char_append, Hspace, Hmnemonic. done.
    - rewrite !append_assoc. done. }
  unfold trigger_slope_get_process, trigger_coupling_get_process,
    trigger_mode_get_process, trigger_level_get_process.
  rewrite !Hfirst, !Hlast. repeat split.
  - rewrite (append_cons " " "" payload), append_nil.
    by rewrite (split1_last_at mnemonic payload).
  - intros number u1 u2. rewrite Hfirst, Hlast.
    pose proof (drop_last_append number (String u1 (String u2 ""))) as Hdrop.
    cbn [String.length] in Hdrop. by rewrite Hdrop.
Qed.

Lemma setup_text_tokens (type source hold_type hold_value1 : string) :
  has_char "," type = false → has_char "," source = false →
  has_char "," hold_type = false → has_char "," hold_value1 = false →
  split_all ","
    (type +:+ ",SR," +:+ source +:+ ",HT," +:+ hold_type +:+ ",HV," +:+ hold_value1)
  = [type; "SR"; source; "HT"; hold_type; "HV"; hold_value1].
Proof.
  intros Htype Hsource Hhold Hvalue.
  rewrite !append_cons, !append_nil.
  rewrite (split_all_at "," type) by done.
  cbn [split_all Ascii.eqb Bool.eqb]. rewrite (split_all_at "," source) by done.
  cbn [split_all Ascii.eqb Bool.eqb]. rewrite (split_all_at "," hold_type) by done.
  cbn [split_all Ascii.eqb Bool.eqb]. rewrite (split_all_absent "," hold_value1) by done.
  done.
Qed.

(** The reply to TRSE? in the shape [header type,SR,source,HT,hold
    type,HV,hold value], with fields free of commas, parses to exactly
    these four fields: the tokens at positions 0, 2, 4 and 6. *)
Theorem trigger_setup_of_setup_text (header type source hold_type hold_value1 : string) :
  has_char " " header = false →
  has_char "," type = false → has_char "," source = false →
  has_char "," hold_type = false → has_char "," hold_value1 = false →
  trigger_setup_of_reply
    (header +:+ " " +:+ type +:+ ",SR," +:+ source +:+ ",HT," +:+ hold_type
     +:+ ",HV," +:+ hold_value1)
  = Ok {[ "type" := VStr type; "source" := VStr source;
          "hold_type" := VStr hold_type; "hold_value1" := VStr hold_value1 ]}.
Proof.
  intros Hheader Htype Hsource Hhold Hvalue.
  unfold trigger_setup_of_reply, trigger_setup_preprocess_reply, split1_second.
  rewrite (append_cons " " "" _), append_nil, split1_at by done.
  by rewrite setup_text_tokens.
Qed.

(** ** The text of the set commands *)

Lemma insert_id_other (ch : string) (c : Ascii.ascii) (rest : string) :
  Ascii.eqb c "{" = false →
  insert_id ch (String c rest) = String c (insert_id ch rest).
Proof.
  destruct c as [[] [] [] [] [] [] [] []]; first [discriminate | reflexivity].
Qed.

Lemma insert_id_append (ch a rest : string) :
  has_char "{" a = false → insert_id ch (a +:+ rest) = a +:+ insert_id ch rest.
Proof.
  induction a as [|c a IH]; rewrite ?append_nil, ?append_cons; cbn [has_char];
    [done|].
  intros [Hc Ha]%orb_false_iff. rewrite insert_id_other by done.
  by rewrite IH.
Qed.

Lemma insert_id_absent (ch a : string) : has_char "{" a = false → insert_id ch a = a.
Proof.
  intros Ha. rewrite <- (append_nil_r a) at 1.
  rewrite insert_id_append by done. by rewrite append_nil_r.
Qed.

(** Round trip of the two scalar controls: what [set_process] writes for
    the value [v], read back behind a header through [get_process], is
    [float] of the text ["%.2e" % v]: the unit that the setter appends (V
    or S) is the one character that the getter drops. *)
Theorem scalar_controls_round_trip (header : string) (v x : float) :
  has_char " " header = false →
  float_of_str (format_2e v) = Some x →
  vertical_division_get_process (header +:+ " " +:+ vertical_division_set_process v)
  = Ok x
  ∧ timeDiv_get_process (header +:+ " " +:+ timeDiv_set_process v) = Ok x.
Proof.
  intros Hheader Hx.
  unfold vertical_division_set_process, timeDiv_set_process,
    vertical_division_get_process, timeDiv_get_process.
  by rewrite !payload_number, Hx.
Qed.

(** The [get_process] of the channel coupling returns the first character
    of the payload of the reply and raises [IndexError] when the payload
    is empty (also for an empty reply); the [get_process] of [status] and
    [internal_state] returns the whole payload. *)
Theorem coupling_of_reply (header rest : string) (c : Ascii.ascii) :
  has_char " " header = false →
  coupling_get_process (header +:+ " " +:+ String c rest) = Ok (String c "")
  ∧ coupling_get_process (header +:+ " ") = Raise IndexError
  ∧ coupling_get_process "" = Raise IndexError
  ∧ status_get_process (header +:+ " " +:+ rest) = rest.
Proof.
  intros Hheader. unfold coupling_get_process, status_get_process.
  rewrite !append_cons, !append_nil.
  by rewrite !(split1_last_at header).
Qed.

Lemma setup_template_filled (ch a b c : string) :
  has_char "{" a = false → has_char "{" b = false → has_char "{" c = false →
  insert_id ch (py_percent (setCommands "setup") [a; b; c])
  = "TRSE " +:+ a +:+ ",SR," +:+ ch +:+ ",HT," +:+ b +:+ ",HV," +:+ c.
Proof.
  intros Ha Hb Hc. unfold setCommands. rewrite decide_True by done.
  cbn [py_percent insert_id].
  rewrite !append_cons, !append_nil, !append_nil_r.
  rewrite insert_id_append by done.
  cbn [insert_id]. rewrite insert_id_append by done.
  cbn [insert_id]. rewrite insert_id_absent by done.
  done.
Qed.

(** The texts of the five set commands, for a configuration whose values
    are free of braces.  The source field of the setup command and the
    prefix of the level, coupling and slope commands are the id of the
    trigger channel: the "source" entry of the configuration is in none
    of them.  The mode command carries no id.  The level command needs a
    number: for any other value the formatting raises [TypeError]. *)
Theorem set_command_texts (id : value) (dictIn : gmap string value) :
  (∀ key, key ∈ ["type"; "hold_type"; "hold_value1"; "coupling"; "slope"; "mode"] →
          has_char "{" (py_str (dict_get dictIn key)) = false) →
  (∀ x, dict_get dictIn "level" = VFloat x → has_char "{" (format_2e x) = false) →
  set_command id dictIn "setup"
  = Ok ("TRSE " +:+ py_str (dict_get dictIn "type") +:+ ",SR," +:+ py_str id
        +:+ ",HT," +:+ py_str (dict_get dictIn "hold_type")
        +:+ ",HV," +:+ py_str (dict_get dictIn "hold_value1"))
  ∧ set_command id dictIn "level"
    = match dict_get dictIn "level" with
      | VFloat x => Ok (py_str id +:+ ":TRLV " +:+ format_2e x +:+ "V")
      | _ => Raise TypeError
      end
  ∧ set_command id dictIn "coupling"
    = Ok (py_str id +:+ ":TRCP " +:+ py_str (dict_get dictIn "coupling"))
  ∧ set_command id dictIn "slope"
    = Ok (py_str id +:+ ":TRSL " +:+ py_str (dict_get dictIn "slope"))
  ∧ set_command id dictIn "mode"
    = Ok ("TRMD " +:+ py_str (dict_get dictIn "mode")).
Proof.
  intros Hdict Hformat. split.
  { unfold set_command, setProcesses. rewrite decide_True by done.
    cbn [fmap list_fmap].
    by rewrite setup_template_filled by (apply Hdict; set_solver). }
  unfold set_command, setProcesses, setCommands.
  repeat (first [rewrite decide_True by done | rewrite decide_False by done]).
  cbn [fmap list_fmap py_percent insert_id].
  repeat split.
  - destruct (dict_get dictIn "level") as [|s|x]; [done..|].
    cbn [fmap list_fmap py_percent insert_id py_str].
    rewrite append_nil_r.
    rewrite insert_id_absent.
    + by rewrite !append_cons, !append_nil.
    + by rewrite has_char_append, Hformat.
  - rewrite append_nil_r, insert_id_absent by (apply Hdict; set_solver).
    by rewrite !append_cons, !append_nil.
  - rewrite append_nil_r, insert_id_absent by (apply Hdict; set_solver).
    by rewrite !append_cons, !append_nil.
  - rewrite append_nil_r, insert_id_absent by (apply Hdict; set_solver). done.
Qed.

(** Round trip of the setup command: when type, hold type, hold value and
    the id hold no comma (and the first three no brace), the text that
    [set_triggerConfig] writes for the group "setup" parses, as a reply to
    TRSE?, to the same type, hold type and hold value, with the id of the
    channel as source. *)
Theorem setup_command_reads_back (id : value) (dictIn : gmap string value)
    (command : string) :
  (∀ key, key ∈ ["type"; "hold_type"; "hold_value1"] →
          has_char "{" (py_str (dict_get dictIn key)) = false
          ∧ has_char "," (py_str (dict_get dictIn key)) = false) →
  has_char "," (py_str id) = false →
  set_command id dictIn "setup" = Ok command →
  trigger_setup_of_reply command
  = Ok {[ "type" := VStr (py_str (dict_get dictIn "type"));
          "source" := VStr (py_str id);
          "hold_type" := VStr (py_str (dict_get dictIn "hold_type"));
          "hold_value1" := VStr (py_str (dict_get dictIn "hold_value1")) ]}.
Proof.
  intros Hdict Hid.
  unfold set_command, setProcesses. rewrite decide_True by done.
  cbn [fmap list_fmap].
  rewrite setup_template_filled by (apply Hdict; set_solver).
  intros [= <-].
  unfold trigger_setup_of_reply, trigger_setup_preprocess_reply, split1_second.
  rewrite 5!append_cons, append_nil. cbn [split1 Ascii.eqb Bool.eqb].
  rewrite setup_text_tokens; [done|apply Hdict; set_solver|done|apply Hdict; set_solver..].
Qed.
End Parsers.

Section Transactions.
Context `{Python} {W : Type} `{Adapter W}.

(** ** Descriptor and waveform: when they fail *)

Lemma descriptor_of_reply_error (reply : list byte) e :
  descriptor_of_reply reply = Raise e → e = StructError.
Proof. unfold descriptor_of_reply. repeat case_match; congruence. Qed.

Lemma unpack_slice_short (size offset : Z) (buffer : list byte) :
  (0 ≤ offset)%Z → (Z.of_nat (length buffer) < offset + size)%Z →
  unpack_slice size buffer offset = Raise StructError.
Proof.
  intros Ho Hlen. unfold unpack_slice.
  destruct (Z.ltb_spec offset 0); [lia|].
  destruct (Z.ltb_spec (Z.of_nat (length buffer) - offset) size); [done|lia].
Qed.

(** On a host whose C [long] has at most 128 bytes, [get_desc] returns a
    descriptor exactly when the reply to the descriptor query has at
    least 209 bytes (the header of 21, and the descriptor up to the end of
    the time offset at +180).  On a shorter reply [get_desc] raises
    [struct.error], and so does [get_waveform], which then has sent the
    descriptor query only. *)
Theorem get_desc_returns_iff ch (st : driver W) reply w :
  (sizeof_long ≤ 128)%nat →
  exchange_bytes ("C" +:+ ch +:+ ":WF? DESC") (adapter st) = (reply, w) →
  ((∃ d, (get_desc ch st).1 = Ok d) ↔ (209 ≤ length reply)%nat)
  ∧ ((length reply < 209)%nat →
     (get_desc ch st).1 = Raise StructError
     ∧ (get_waveform ch st).1 = Raise StructError
     ∧ log (get_waveform ch st).2
       = log st ++ [EvWrite ("C" +:+ ch +:+ ":WF? DESC"); EvReadBytes]).
Proof.
  intros Hlong Hex.
  assert (Hshort : (length reply < 209)%nat →
                   descriptor_of_reply reply = Raise StructError).
  { intros Hlen. unfold descriptor_of_reply.
    assert (unpack_d reply (21 + 180) = Raise StructError) as ->.
    { unfold unpack_d. rewrite unpack_slice_short by lia. done. }
    by repeat case_match. }
  split; [split|].
  - intros [d Hd]. rewrite get_desc_run, Hex in Hd. cbn [fst] in Hd.
    destruct (decide (209 ≤ length reply)%nat); [done|].
    rewrite Hshort in Hd by lia. done.
  - intros Hlen. rewrite get_desc_run, Hex. cbn [fst].
    unfold descriptor_of_reply, unpack_l, unpack_f, unpack_d.
    rewrite !unpack_slice_within by lia. eauto.
  - intros Hlen. rewrite get_waveform_run, get_desc_run, Hex. cbn [fst snd].
    rewrite Hshort by done. done.
Qed.

(** After a descriptor [d], [get_waveform] returns exactly when the count
    of points [N] of [d] is not negative and the reply to the waveform
    query holds at least [21 + N] bytes; otherwise it raises
    [struct.error].  In both cases its traffic is the two queries, each
    followed by one read of bytes. *)
Theorem get_waveform_returns_iff ch (st : driver W) d st1 response w2 :
  get_desc ch st = (Ok d, st1) →
  exchange_bytes ("C" +:+ ch +:+ ":WF? DAT2") (adapter st1) = (response, w2) →
  ((∃ r, (get_waveform ch st).1 = Ok r)
   ↔ (0 ≤ numDataPoints d)%Z
     ∧ (21 + numDataPoints d ≤ Z.of_nat (length response))%Z)
  ∧ ((get_waveform ch st).1 = Raise StructError
     ∨ ∃ r, (get_waveform ch st).1 = Ok r)
  ∧ log (get_waveform ch st).2
    = log st ++ [EvWrite ("C" +:+ ch +:+ ":WF? DESC"); EvReadBytes;
                 EvWrite ("C" +:+ ch +:+ ":WF? DAT2"); EvReadBytes].
Proof.
  intros Hdesc Hdat.
  assert (Hoff : descriptorOffset d = 21%Z).
  { rewrite get_desc_run in Hdesc. injection Hdesc as Hd _.
    unfold descriptor_of_reply in Hd. repeat case_match; try done.
    by injection Hd as <-. }
  assert (Hlog : log st1 = log st ++ [EvWrite ("C" +:+ ch +:+ ":WF? DESC"); EvReadBytes]).
  { rewrite get_desc_run in Hdesc. by injection Hdesc as _ <-. }
  rewrite get_waveform_run, Hdesc, Hdat. cbn [fst snd log].
  rewrite Hlog, <- app_assoc. cbn [app].
  split; [|split; [|done]].
  - split.
    + intros [r Hr]. unfold decode_waveform, unpack_b in Hr. rewrite Hoff in Hr.
      destruct (Z.ltb_spec (numDataPoints d) 0); [done|]. split; [lia|].
      destruct (decide (21 + numDataPoints d ≤ Z.of_nat (length response))%Z);
        [done|].
      rewrite unpack_slice_short in Hr by lia. done.
    + intros [HN Hlen].
      destruct (decode_waveform_samples d response) as (t & v & Hok & _);
        [done|lia|lia|]. eauto.
  - unfold decode_waveform, unpack_b.
    destruct (Z.ltb_spec (numDataPoints d) 0); [by left|].
    destruct (unpack_slice _ _ _) as [bs|e] eqn:Hslice; [right; eauto|left].
    by rewrite (unpack_slice_error _ _ _ _ Hslice).
Qed.

(** ** The read of the trigger configuration: when it fails, what it stores *)

Lemma trigger_setup_of_reply_error reply e :
  trigger_setup_of_reply reply = Raise e → e = IndexError.
Proof.
  unfold trigger_setup_of_reply, trigger_setup_preprocess_reply, split1_second,
    trigger_setup_get_process.
  repeat case_match; congruence.
Qed.

Lemma trigger_level_get_process_error reply e :
  trigger_level_get_process reply = Raise e → e = ValueError.
Proof. unfold trigger_level_get_process. case_match; congruence. Qed.

(** When the reply to TRSE? does not parse (no space, or fewer than seven
    comma-separated tokens after it), [get_triggerConfig] raises
    [IndexError] after this one query: the other four queries are not
    sent and the cache is as it was. *)
Theorem get_triggerConfig_setup_error (st : driver W) setup w1 e :
  exchange "TRSE?" (adapter st) = (setup, w1) →
  trigger_setup_of_reply setup = Raise e →
  get_triggerConfig st
  = (Raise IndexError,
     Driver w1 (log st ++ [EvWrite "TRSE?"; EvRead]) (heap st)
            (trigger_id st) (trigger_triggerConfDict st)).
Proof.
  intros Hex Hsetup. rewrite (trigger_setup_of_reply_error _ _ Hsetup) in Hsetup.
  unfold get_triggerConfig.
  rewrite bind_unfold, update_from_run, trigger_setup_run, Hex. cbn [fst snd].
  by rewrite Hsetup.
Qed.

(** When the reply to TRSE? parses and the reply to TRLV? does not,
    [get_triggerConfig] raises [ValueError] after these two queries, and
    the cache is left half updated: it holds the four entries of the
    setup reply over its former entries. *)
Theorem get_triggerConfig_level_error (st : driver W) setup w1 level w2 d1 e :
  exchange "TRSE?" (adapter st) = (setup, w1) →
  trigger_setup_of_reply setup = Ok d1 →
  exchange "TRLV?" w1 = (level, w2) →
  trigger_level_get_process level = Raise e →
  get_triggerConfig st
  = (Raise ValueError,
     Driver w2 (log st ++ [EvWrite "TRSE?"; EvRead; EvWrite "TRLV?"; EvRead])
            (<[self_triggerConfDict st := d1 ∪ heap st !!! self_triggerConfDict st]>
               (heap st))
            (trigger_id st) (trigger_triggerConfDict st)).
Proof.
  intros Hex1 Hsetup Hex2 Hlevel.
  rewrite (trigger_level_get_process_error _ _ Hlevel) in Hlevel.
  unfold get_triggerConfig.
  erewrite bind_ok; last first.
  { rewrite update_from_run, trigger_setup_run, Hex1. cbn [fst snd]. by rewrite Hsetup. }
  rewrite bind_unfold, update_from_run, trigger_level_run.
  cbn [fst snd adapter log heap trigger_id trigger_triggerConfDict].
  rewrite Hex2. cbn [fst snd]. rewrite Hlevel.
  by rewrite <- app_assoc.
Qed.

(** A read of the trigger configuration that succeeds overwrites all eight
    entries of the cache with what the five replies hold (the source being
    the one of the reply to TRCP?), whatever the cache held before, and
    leaves every other entry of the cache as it was. *)
Theorem get_triggerConfig_overwrites (st : driver W)
    setup level slope mode coupling w5 d1 d2 :
  trigger_exchanges (adapter st) = ((setup, level, slope, mode, coupling), w5) →
  trigger_setup_of_reply setup = Ok d1 →
  trigger_level_get_process level = Ok d2 →
  let cache := heap (get_triggerConfig st).2 !!! self_triggerConfDict st in
  cache_reports cache setup level slope mode coupling
  ∧ ∀ key, key ∉ config_keys →
      cache !! key = (heap st !!! self_triggerConfDict st) !! key.
Proof.
  intros Hex Hd1 Hd2 cache. unfold cache.
  rewrite (get_triggerConfig_run _ _ _ _ _ _ _ _ _ Hex Hd1 Hd2).
  cbn [snd heap]. rewrite lookup_total_insert_eq. clear cache.
  pose proof (trigger_setup_of_reply_dom _ _ Hd1) as Hdom1.
  unfold trigger_level_get_process in Hd2.
  destruct (float_of_str _) as [x|] eqn:Hx; [|done]. injection Hd2 as <-.
  unfold trigger_coupling_get_process, trigger_mode_get_process,
    trigger_slope_get_process.
  assert (Hin : ∀ key, key ∈ dom d1 → is_Some (d1 !! key)).
  { intros key. by rewrite elem_of_dom. }
  destruct (Hin "type") as [vt Hvt]; [rewrite Hdom1; set_solver|].
  destruct (Hin "hold_type") as [vh Hvh]; [rewrite Hdom1; set_solver|].
  destruct (Hin "hold_value1") as [vv Hvv]; [rewrite Hdom1; set_solver|].
  split.
  - exists d1, x. split; [done|]. split; [done|].
    rewrite !lookup_union, !lookup_insert, !lookup_singleton.
    rewrite Hvt, Hvh, Hvv.
    repeat split; repeat (case_decide; try congruence);
      by repeat (destruct (_ !! _)).
  - intros key Hkey. unfold config_keys in Hkey.
    rewrite !not_elem_of_union, !not_elem_of_singleton in Hkey.
    destruct Hkey as (((((((?&?)&?)&?)&?)&?)&?)&?).
    assert (d1 !! key = None) as Hnone.
    { apply not_elem_of_dom. rewrite Hdom1. set_solver. }
    rewrite !lookup_union, Hnone, !lookup_insert, !lookup_singleton.
    repeat (case_decide; [congruence|]). cbn.
    by destruct ((heap st !!! _) !! key).
Qed.

(** ** What the waveform methods and [arm] leave alone *)

(** [get_waveform] and [arm] touch neither the cached trigger
    configuration nor the id of the trigger channel, whether they return
    or raise. *)
Theorem waveform_and_arm_frame ch (st : driver W) :
  (heap (get_waveform ch st).2 = heap st
   ∧ trigger_id (get_waveform ch st).2 = trigger_id st
   ∧ trigger_triggerConfDict (get_waveform ch st).2 = trigger_triggerConfDict st)
  ∧ (heap (arm st).2 = heap st
     ∧ trigger_id (arm st).2 = trigger_id st
     ∧ trigger_triggerConfDict (arm st).2 = trigger_triggerConfDict st).
Proof.
  split.
  - rewrite get_waveform_run, get_desc_run.
    by destruct (descriptor_of_reply _).
  - unfold arm, is_ready, measurement. rewrite !bind_unfold, ask_run.
    unfold mret at 1, M_ret at 1. cbv beta iota.
    by destruct (is_ready_get_process _).
Qed.

(** ** The write of the trigger configuration: what it sends *)

Lemma changed_keys_in_kwargs (d : gmap string value) kwargs keys changed :
  changed_keys d kwargs keys = Ok changed →
  changed `sublist_of` keys
  ∧ ∀ key, key ∈ keys →
      ∃ old new, d !! key = Some old ∧ kwargs_get kwargs key = Some new
                 ∧ (key ∈ changed ↔ py_ne old new = true).
Proof.
  revert changed. induction keys as [|k keys IH]; intros changed; cbn [changed_keys].
  - intros [= <-]. split; [done|]. by intros key ?%elem_of_nil.
  - destruct (d !! k) as [old|] eqn:Hold; [|done].
    destruct (kwargs_get kwargs k) as [new|] eqn:Hnew; [|done].
    destruct (changed_keys d kwargs keys) as [l|]; [|done].
    destruct (IH l eq_refl) as [Hsub Hkeys].
    intros [= <-]. split.
    + destruct (py_ne old new); by constructor.
    + intros key [->|Hkey]%elem_of_cons.
      * exists old, new. split; [done|]. split; [done|].
        destruct (py_ne old new) eqn:Hne; [set_solver|].
        split; [|done]. intros Hin.
        destruct (Hkeys k) as (old' & new' & ? & ? & Hiff).
        { by eapply elem_of_sublist. }
        apply Hiff in Hin. congruence.
      * destruct (Hkeys key Hkey) as (old' & new' & ? & ? & Hiff).
        exists old', new'. split; [done|]. split; [done|].
        rewrite <- Hiff. destruct (py_ne old new) eqn:Hne; [|done].
        rewrite elem_of_cons. split; [|by right].
        intros [->|?]; [|done].
        apply Hiff. congruence.
Qed.

Lemma foreach_set_changed_run x kwargs keys (st : driver W) :
  (∀ key, key ∈ keys → is_Some (kwargs_get kwargs key)) →
  ∃ h2, foreach keys (set_changed x kwargs) st
        = (Ok tt, Driver (adapter st) (log st) h2 (trigger_id st)
                         (trigger_triggerConfDict st))
        ∧ h2 !!! x = apply_changed kwargs keys (heap st !!! x).
Proof.
  revert st. induction keys as [|key keys IH]; intros st Hkeys.
  - exists (heap st). by destruct st.
  - destruct (Hkeys key) as [v Hv]; [set_solver|].
    cbn [foreach apply_changed]. rewrite bind_unfold. unfold set_changed at 1.
    rewrite Hv. unfold heap_setitem, modify.
    destruct (IH (Driver (adapter st) (log st)
                         (<[x := <[key := v]> (heap st !!! x)]> (heap st))
                         (trigger_id st) (trigger_triggerConfDict st)))
      as (h2 & -> & Hh2); [set_solver|].
    exists h2. split; [done|].
    by rewrite Hh2; cbn [heap]; rewrite lookup_total_insert_eq.
Qed.

Lemma write_process_run x key (st : driver W) :
  write_process x key st
  = match set_command (trigger_id st) (heap st !!! x) key with
    | Ok command =>
        (Ok tt, Driver (adapter_write command (adapter st))
                       (log st ++ [EvWrite command])
                       (heap st) (trigger_id st) (trigger_triggerConfDict st))
    | Raise e => (Raise e, st)
    end.
Proof.
  unfold write_process, trigger_write, set_command. msimpl.
  by destruct (setProcesses key _).
Qed.

Lemma foreach_write_process_run x keys commands rest (st : driver W) :
  Forall2 (λ key command, set_command (trigger_id st) (heap st !!! x) key = Ok command)
          keys commands →
  ∃ w, foreach (keys ++ rest) (write_process x) st
       = foreach rest (write_process x)
           (Driver w (log st ++ (EvWrite <$> commands)) (heap st)
                   (trigger_id st) (trigger_triggerConfDict st)).
Proof.
  remember (trigger_id st) as id eqn:Hid. remember (heap st !!! x) as d eqn:Hd.
  intros Hall. revert st Hid Hd.
  induction Hall as [|key command keys commands Hkey Hall IH]; intros st Hid Hd.
  - exists (adapter st). cbn [fmap list_fmap app]. rewrite app_nil_r, Hid.
    by destruct st.
  - cbn [app foreach]. rewrite bind_unfold, write_process_run, <- Hid, <- Hd, Hkey.
    rewrite Hid.
    destruct (IH (Driver (adapter_write command (adapter st))
                         (log st ++ [EvWrite command])
                         (heap st) (trigger_id st) (trigger_triggerConfDict st)))
      as [w ->]; [done..|].
    exists w. cbn [log heap trigger_id trigger_triggerConfDict fmap list_fmap].
    by rewrite <- app_assoc, Hid.
Qed.

Lemma processToChange_sublist changed :
  processToChange changed `sublist_of` setValues_keys.
Proof. apply sublist_filter. Qed.

Lemma processToChange_elem changed group :
  group ∈ processToChange changed
  ↔ group ∈ setValues_keys ∧ ∃ key, key ∈ setValues group ∧ key ∈ changed.
Proof.
  unfold processToChange. rewrite list_elem_of_filter, existsb_exists. split.
  - intros [(key & Hin & Hb) Hgroup]. split; [done|]. exists key.
    split; [by apply list_elem_of_In|]. by apply bool_decide_eq_true in Hb.
  - intros [Hgroup (key & Hin & Hkey)]. split; [|done]. exists key.
    split; [by apply list_elem_of_In|]. by apply bool_decide_eq_true.
Qed.

Lemma setValues_config group key :
  group ∈ setValues_keys → key ∈ setValues group → key ∈ config_keys.
Proof.
  unfold setValues_keys, config_keys. intros Hgroup.
  repeat (apply elem_of_cons in Hgroup as [->|Hgroup]);
    [..|by apply elem_of_nil in Hgroup];
    unfold setValues;
    repeat (first [rewrite decide_True by done | rewrite decide_False by done]);
    set_solver.
Qed.

Lemma config_group key :
  key ∈ config_keys → ∃ group, group ∈ setValues_keys ∧ key ∈ setValues group.
Proof.
  unfold config_keys. rewrite !elem_of_union, !elem_of_singleton.
  intros [[[[[[[->| ->]| ->]| ->]| ->]| ->]| ->]| ->];
    [exists "setup"|exists "setup"|exists "setup"|exists "setup"
    |exists "level"|exists "slope"|exists "mode"|exists "coupling"];
    (split; [unfold setValues_keys; set_solver|]);
    unfold setValues;
    repeat (first [rewrite decide_True by done | rewrite decide_False by done]);
    set_solver.
Qed.

Lemma kwargs_get_Some (kwargs : list (string * value)) key v :
  kwargs_get kwargs key = Some v → (key, v) ∈ kwargs.
Proof.
  induction kwargs as [|[k v'] kwargs IH]; cbn [kwargs_get]; [done|].
  case_decide as Hk.
  - intros [= ->]. subst k. apply list_elem_of_here.
  - intros ?%IH. by apply list_elem_of_further.
Qed.

Lemma processToChange_nil (d : gmap string value) kwargs changed :
  changed_keys d kwargs kwargs.*1 = Ok changed →
  processToChange changed = []
  ↔ ∀ key old new, key ∈ config_keys → d !! key = Some old →
      kwargs_get kwargs key = Some new → py_ne old new = false.
Proof.
  intros [Hsub Hkeys]%changed_keys_in_kwargs. split.
  - intros Hnil key old new Hconfig Hold Hnew.
    destruct (py_ne old new) eqn:Hne; [|done].
    destruct (Hkeys key) as (old' & new' & Hold' & Hnew' & Hiff).
    { apply list_elem_of_fmap. exists (key, new). split; [done|].
      by apply kwargs_get_Some. }
    destruct (config_group key Hconfig) as (group & Hgroup & Hin).
    assert (group ∈ processToChange changed) as Helem.
    { apply processToChange_elem. split; [done|]. exists key. split; [done|].
      apply Hiff. congruence. }
    rewrite Hnil in Helem. by apply elem_of_nil in Helem.
  - intros Hsame. apply elem_of_nil_inv. intros group Hgroup.
    apply processToChange_elem in Hgroup as [Hgroup (key & Hin & Hkey)].
    destruct (Hkeys key) as (old & new & Hold & Hnew & Hiff).
    { by eapply elem_of_sublist. }
    apply Hiff in Hkey.
    rewrite (Hsame key old new) in Hkey; [done| |done..].
    by eapply setValues_config.
Qed.

(** The traffic of [set_triggerConfig] when the first read succeeds, every
    keyword is a key of the cache and the commands format: the five
    queries, then one set command for each group that holds a changed key
    (at most five, in the order setup, level, coupling, slope, mode,
    whatever the order of the keywords), each formatted from the
    configuration with all changes applied and from the id as the
    keywords set it, then queries only (all five when the call returns).
    No set command at all is written exactly when no keyword of the eight
    differs from the value that was read. *)
Theorem set_triggerConfig_traffic kwargs (st : driver W) x st1 changed commands :
  get_triggerConfig st = (Ok x, st1) →
  changed_keys (heap st1 !!! x) kwargs kwargs.*1 = Ok changed →
  Forall2 (λ key command,
             set_command (id_after kwargs st1)
               (apply_changed kwargs changed (heap st1 !!! x)) key = Ok command)
          (processToChange changed) commands →
  (length commands ≤ 5)%nat
  ∧ (∃ evs,
      log (set_triggerConfig kwargs st).2
      = log st ++ trigger_queries ++ (EvWrite <$> commands) ++ evs
      ∧ Forall query_event evs
      ∧ ((∃ b, (set_triggerConfig kwargs st).1 = Ok b) → evs = trigger_queries))
  ∧ (commands = []
     ↔ ∀ key old new, key ∈ config_keys → (heap st1 !!! x) !! key = Some old →
         kwargs_get kwargs key = Some new → py_ne old new = false).
Proof.
  intros Hget Hchanged Hcommands. split; [|split].
  { rewrite <- (Forall2_length _ _ _ Hcommands).
    apply (sublist_length _ _ (processToChange_sublist changed)). }
  2: { rewrite <- (processToChange_nil _ _ _ Hchanged). split.
       - intros ->. by apply Forall2_nil_inv_r in Hcommands.
       - intros Hnil. rewrite Hnil in Hcommands.
         by apply Forall2_nil_inv_l in Hcommands. }
  destruct (get_triggerConfig_ok_frame _ _ _ Hget) as (_ & Hlog & _).
  rewrite set_triggerConfig_run, Hget. cbn zeta.
  rewrite Hchanged.
  destruct (foreach_set_changed_run x kwargs changed
              (Driver (adapter st1) (log st1) (heap st1) (id_after kwargs st1)
                      (trigger_triggerConfDict st1))) as (h2 & -> & Hh2).
  { intros key Hkey.
    destruct (changed_keys_in_kwargs _ _ _ _ Hchanged) as [Hsub Hkeys].
    destruct (Hkeys key) as (? & new & _ & -> & _); [|done].
    by eapply elem_of_sublist. }
  cbn [adapter log heap trigger_id trigger_triggerConfDict] in *.
  destruct (foreach_write_process_run x (processToChange changed) commands []
              (Driver (adapter st1) (log st1) h2 (id_after kwargs st1)
                      (trigger_triggerConfDict st1))) as [w Hwrite].
  { cbn [heap trigger_id]. by rewrite Hh2. }
  rewrite app_nil_r, foreach_nil in Hwrite. rewrite Hwrite.
  cbn [adapter log heap trigger_id trigger_triggerConfDict].
  set (st3 := Driver w _ h2 _ _).
  destruct (only_queries_get_triggerConfig st3) as (evs & Hlog3 & Hevs).
  pose proof (get_triggerConfig_ok_frame st3) as Hframe.
  exists evs.
  destruct (get_triggerConfig st3) as [[y|e] st4]; cbn [fst snd log] in *.
  - destruct (Hframe _ _ eq_refl) as (_ & Hlog4 & _).
    split; [|split; [done|]].
    + rewrite Hlog3. unfold st3. cbn [log]. by rewrite Hlog, <- !app_assoc.
    + intros _. rewrite Hlog4 in Hlog3. by apply app_inv_head in Hlog3.
  - split; [|split; [done|]].
    + rewrite Hlog3. unfold st3. cbn [log]. by rewrite Hlog, <- !app_assoc.
    + by intros [b ?].
Qed.

Lemma apply_changed_other kwargs keys (d : gmap string value) key :
  key ∉ keys → apply_changed kwargs keys d !! key = d !! key.
Proof.
  revert d. induction keys as [|k keys IH]; intros d Hkey; cbn [apply_changed]; [done|].
  apply not_elem_of_cons in Hkey as [Hne Hkey].
  destruct (kwargs_get kwargs k) as [v|]; [|done].
  by rewrite IH, lookup_insert_ne.
Qed.

Lemma apply_changed_lookup kwargs keys (d : gmap string value) key :
  (∀ k, k ∈ keys → is_Some (kwargs_get kwargs k)) →
  key ∈ keys → apply_changed kwargs keys d !! key = kwargs_get kwargs key.
Proof.
  revert d. induction keys as [|k keys IH]; intros d Hkeys Hkey; cbn [apply_changed].
  { by apply elem_of_nil in Hkey. }
  destruct (Hkeys k) as [v Hv]; [set_solver|]. rewrite Hv.
  destruct (decide (key ∈ keys)) as [Hin|Hout].
  - apply IH; [|done]. intros k' Hk'. apply Hkeys. set_solver.
  - apply elem_of_cons in Hkey as [->|?]; [|done].
    by rewrite apply_changed_other, lookup_insert_eq.
Qed.

Lemma processToChange_level changed :
  "level" ∈ changed →
  ∃ rest,
    processToChange changed
    = (if decide ("setup" ∈ processToChange changed) then ["setup"] else [])
      ++ "level" :: rest.
Proof.
  intros Hlevel.
  assert ("level" ∈ processToChange changed) as Hin.
  { apply processToChange_elem. split; [unfold setValues_keys; set_solver|].
    exists "level". split; [|done]. unfold setValues.
    rewrite decide_False, decide_True by done. set_solver. }
  revert Hin. generalize (processToChange_sublist changed).
  generalize (processToChange changed). intros l Hsub Hin.
  unfold setValues_keys in Hsub.
  apply sublist_cons_r in Hsub as [Hsub|(l' & -> & Hsub)].
  - rewrite decide_False.
    + apply sublist_cons_r in Hsub as [Hsub|(l' & -> & Hsub)]; [|by eexists].
      apply (elem_of_sublist _ _ _ Hin) in Hsub. set_solver.
    + intros Hsetup. apply (elem_of_sublist _ _ _ Hsetup) in Hsub. set_solver.
  - rewrite decide_True by set_solver.
    apply sublist_cons_r in Hsub as [Hsub|(l'' & -> & Hsub)]; [|by eexists].
    apply elem_of_cons in Hin as [?|Hin]; [done|].
    apply (elem_of_sublist _ _ _ Hin) in Hsub. set_solver.
Qed.

(** A changed level that is not a number makes [set_triggerConfig] raise
    [TypeError] when it formats the level command.  By then the cache
    already holds the value under "level", the setup command has been
    written if a key of its group changed too, and nothing else has been
    written; the second read does not take place. *)
Theorem set_triggerConfig_level_type_error kwargs (st : driver W) x st1 changed new :
  get_triggerConfig st = (Ok x, st1) →
  changed_keys (heap st1 !!! x) kwargs kwargs.*1 = Ok changed →
  "level" ∈ changed →
  kwargs_get kwargs "level" = Some new →
  (∀ number, new ≠ VFloat number) →
  (set_triggerConfig kwargs st).1 = Raise TypeError
  ∧ (heap (set_triggerConfig kwargs st).2 !!! x) !! "level" = Some new
  ∧ ∃ command,
      set_command (id_after kwargs st1)
        (apply_changed kwargs changed (heap st1 !!! x)) "setup" = Ok command
      ∧ log (set_triggerConfig kwargs st).2
        = log st ++ trigger_queries
          ++ (if decide ("setup" ∈ processToChange changed)
              then [EvWrite command] else []).
Proof.
  intros Hget Hchanged Hlevel Hnew Hfloat.
  destruct (get_triggerConfig_ok_frame _ _ _ Hget) as (_ & Hlog & _).
  destruct (changed_keys_in_kwargs _ _ _ _ Hchanged) as [Hsub Hkeys].
  assert (Hsome : ∀ key, key ∈ changed → is_Some (kwargs_get kwargs key)).
  { intros key Hkey. destruct (Hkeys key) as (? & v & _ & -> & _); [|done].
    by eapply elem_of_sublist. }
  rewrite set_triggerConfig_run, Hget. cbn zeta. rewrite Hchanged.
  destruct (foreach_set_changed_run x kwargs changed
              (Driver (adapter st1) (log st1) (heap st1) (id_after kwargs st1)
                      (trigger_triggerConfDict st1)) Hsome) as (h2 & -> & Hh2).
  cbn [adapter log heap trigger_id trigger_triggerConfDict] in *.
  set (dictIn := apply_changed kwargs changed (heap st1 !!! x)) in *.
  assert (Hraise : set_command (id_after kwargs st1) dictIn "level" = Raise TypeError).
  { unfold set_command, setProcesses, dict_get.
    rewrite decide_False, decide_True by done.
    unfold dictIn. rewrite apply_changed_lookup, Hnew by done. cbn [default].
    destruct new as [|s|number]; [done..|]. by destruct (Hfloat number). }
  destruct (set_command (id_after kwargs st1) dictIn "setup") as [command|e]
    eqn:Hsetup; last first.
  { unfold set_command, setProcesses in Hsetup.
    by rewrite decide_True in Hsetup by done. }
  assert (Hrun : ∀ pre commands rest,
    Forall2 (λ key command, set_command (id_after kwargs st1) dictIn key = Ok command)
            pre commands →
    ∃ w, foreach (pre ++ "level" :: rest) (write_process x)
           (Driver (adapter st1) (log st1) h2 (id_after kwargs st1)
                   (trigger_triggerConfDict st1))
         = (Raise TypeError,
            Driver w (log st1 ++ (EvWrite <$> commands)) h2 (id_after kwargs st1)
                   (trigger_triggerConfDict st1))).
  { intros pre commands rest Hpre.
    destruct (foreach_write_process_run x pre commands ("level" :: rest)
                (Driver (adapter st1) (log st1) h2 (id_after kwargs st1)
                        (trigger_triggerConfDict st1))) as [w ->].
    { cbn [heap trigger_id]. by rewrite Hh2. }
    exists w. cbn [foreach adapter log heap trigger_id trigger_triggerConfDict].
    rewrite bind_unfold, write_process_run.
    cbn [heap trigger_id]. by rewrite Hh2, Hraise. }
  destruct (processToChange_level changed Hlevel) as [rest Hrest].
  destruct (decide ("setup" ∈ processToChange changed)) as [Hs|Hs]; rewrite Hrest.
  - destruct (Hrun ["setup"] [command] rest) as [w ->]; [by repeat constructor|].
    cbn [fst snd heap log]. split; [done|]. split.
    { rewrite Hh2. unfold dictIn. by rewrite apply_changed_lookup. }
    exists command. split; [done|]. by rewrite Hlog, <- app_assoc.
  - destruct (Hrun [] [] rest) as [w ->]; [by constructor|].
    cbn [fst snd heap log]. split; [done|]. split.
    { rewrite Hh2. unfold dictIn. by rewrite apply_changed_lookup. }
    exists command. split; [done|]. by rewrite Hlog, <- app_assoc.
Qed.

(** The id of the trigger channel after [set_triggerConfig], however the
    call ends: when the first read fails it is unchanged; otherwise it is
    the keyword "source" when that is given and not [None], and unchanged
    when it is not.  In particular the id is set before the keywords are
    checked, so it also changes in a call that raises [KeyError]. *)
Theorem set_triggerConfig_id kwargs (st : driver W) :
  trigger_id (set_triggerConfig kwargs st).2
  = match (get_triggerConfig st).1 with
    | Ok _ =>
        match kwargs_get kwargs "source" with
        | None | Some VNone => trigger_id st
        | Some source => source
        end
    | Raise _ => trigger_id st
    end.
Proof.
  rewrite set_triggerConfig_run.
  pose proof (get_triggerConfig_id st) as H1.
  destruct (get_triggerConfig st) as [[x|e] st1]; cbn [fst snd] in *; [|done].
  cbn zeta. fold (id_after kwargs st). 
  assert (Hid : id_after kwargs st1 = id_after kwargs st).
  { unfold id_after. by rewrite H1. }
  rewrite <- Hid.
  destruct (changed_keys _ _ _) as [changed|e]; [|done].
  pose proof (preserves_foreach trigger_id changed (set_changed x kwargs)
                (set_changed_id _ _)
                (Driver (adapter st1) (log st1) (heap st1) (id_after kwargs st1)
                        (trigger_triggerConfDict st1))) as H2.
  destruct (foreach changed _ _) as [[[]|e] st2]; cbn [snd trigger_id] in *; [|done].
  pose proof (preserves_foreach trigger_id (processToChange changed) (write_process x)
                (write_process_id _) st2) as H3.
  destruct (foreach (processToChange changed) _ _) as [[[]|e] st3];
    cbn [snd] in *; [|congruence].
  pose proof (get_triggerConfig_id st3) as H4.
  destruct (get_triggerConfig st3) as [[y|e] st4]; cbn [snd trigger_id] in *; congruence.
Qed.

End Transactions.

(** ** More runs on the simulated oscilloscope *)

Lemma is_ready_of_status_witness :
  is_ready_get_process ("SAST" +:+ " " +:+ "Trig'd")
  = bool_decide ("Trig'd" ∈ ["Stop"; "Ready"; "Armed"]).
Proof. apply (is_ready_of_status "SAST" "Trig'd"). reflexivity. Defined.

Lemma vertical_division_of_reply_witness :
  @vertical_division_get_process host_lp64
    ("C1:VDIV" +:+ " " +:+ "5.00E-01" +:+ String "V" "")
  = Ok 0.5%float.
Proof.
  destruct (@vertical_division_of_reply host_lp64 "C1:VDIV" "5.00E-01" "V" eq_refl)
    as [Hv _].
  exact Hv.
Defined.

Lemma trigger_fields_of_replies_witness :
  trigger_slope_get_process ("C1" +:+ ":" +:+ "TRSL" +:+ " " +:+ "POS")
  = {[ "source" := VStr "C1"; "slope" := VStr "POS" ]}.
Proof.
  destruct (@trigger_fields_of_replies host_lp64 "C1" "TRSL" "POS"
              eq_refl eq_refl eq_refl) as [Hslope _].
  exact Hslope.
Defined.

Lemma trigger_setup_of_setup_text_witness :
  trigger_setup_of_reply
    ("TRSE" +:+ " " +:+ "GLIT" +:+ ",SR," +:+ "C2" +:+ ",HT," +:+ "PS"
     +:+ ",HV," +:+ "20NS")
  = Ok {[ "type" := VStr "GLIT"; "source" := VStr "C2";
          "hold_type" := VStr "PS"; "hold_value1" := VStr "20NS" ]}.
Proof.
  apply (trigger_setup_of_setup_text "TRSE" "GLIT" "C2" "PS" "20NS"); reflexivity.
Defined.

Lemma scalar_controls_round_trip_witness :
  @vertical_division_get_process host_lp64
    ("C1:VDIV" +:+ " " +:+ @vertical_division_set_process host_lp64 0.5%float)
  = Ok 0.5%float
  ∧ @timeDiv_get_process host_lp64
      ("TDIV" +:+ " " +:+ @timeDiv_set_process host_lp64 0.5%float)
    = Ok 0.5%float.
Proof.
  split.
  - apply (@scalar_controls_round_trip host_lp64 "C1:VDIV" 0.5%float 0.5%float);
      reflexivity.
  - apply (@scalar_controls_round_trip host_lp64 "TDIV" 0.5%float 0.5%float);
      reflexivity.
Defined.

Lemma coupling_of_reply_witness :
  coupling_get_process ("C1:CPL" +:+ " " +:+ String "D" "1M") = Ok "D"
  ∧ coupling_get_process ("C1:CPL" +:+ " ") = Raise IndexError.
Proof.
  destruct (coupling_of_reply "C1:CPL" "1M" "D" eq_refl) as (Hfirst & Hempty & _).
  split; [exact Hfirst|exact Hempty].
Defined.

Lemma set_command_texts_witness :
  let dictIn : gmap string value :=
    {[ "type" := VStr "EDGE"; "source" := VStr "C1"; "hold_type" := VStr "TI";
       "hold_value1" := VStr "100NS"; "level" := VFloat 0.5%float;
       "slope" := VStr "POS"; "mode" := VStr "AUTO"; "coupling" := VStr "DC" ]} in
  @set_command host_lp64 (VStr "C2") dictIn "setup"
  = Ok ("TRSE " +:+ "EDGE" +:+ ",SR," +:+ "C2" +:+ ",HT," +:+ "TI" +:+ ",HV," +:+ "100NS")
  ∧ @set_command host_lp64 (VStr "C2") dictIn "level"
    = Ok ("C2" +:+ ":TRLV " +:+ "5.00e-01" +:+ "V").
Proof.
  intros dictIn.
  destruct (@set_command_texts host_lp64 (VStr "C2") dictIn) as (Hsetup & Hlevel & _).
  - intros key Hkey.
    repeat (apply elem_of_cons in Hkey as [->|Hkey]);
      [vm_compute; reflexivity..|by apply elem_of_nil in Hkey].
  - intros x Hx. vm_compute in Hx. injection Hx as <-. vm_compute. reflexivity.
  - split; [exact Hsetup|exact Hlevel].
Defined.

Lemma setup_command_reads_back_witness :
  let dictIn : gmap string value :=
    {[ "type" := VStr "EDGE"; "source" := VStr "C1"; "hold_type" := VStr "TI";
       "hold_value1" := VStr "100NS" ]} in
  trigger_setup_of_reply "TRSE EDGE,SR,C2,HT,TI,HV,100NS"
  = Ok {[ "type" := VStr (@py_str host_lp64 (dict_get dictIn "type"));
          "source" := VStr (@py_str host_lp64 (VStr "C2"));
          "hold_type" := VStr (@py_str host_lp64 (dict_get dictIn "hold_type"));
          "hold_value1" := VStr (@py_str host_lp64 (dict_get dictIn "hold_value1")) ]}.
Proof.
  intros dictIn.
  apply (@setup_command_reads_back host_lp64 (VStr "C2") dictIn).
  - intros key Hkey.
    repeat (apply elem_of_cons in Hkey as [->|Hkey]);
      [split; vm_compute; reflexivity..|by apply elem_of_nil in Hkey].
  - reflexivity.
  - vm_compute. reflexivity.
Defined.

Lemma get_desc_returns_iff_witness :
  let st := SDS1072CML_init (bench_scope true 0) in
  (∃ d, (@get_desc host_lp64 scope _ "1" st).1 = Ok d)
  ↔ (209 ≤ length (sc_descriptor (bench_scope true 0)))%nat.
Proof.
  intros st.
  assert (E : exchange_bytes ("C" +:+ "1" +:+ ":WF? DESC") (adapter st)
              = (sc_descriptor (bench_scope true 0),
                 (exchange_bytes ("C" +:+ "1" +:+ ":WF? DESC") (adapter st)).2)).
  { vm_compute. reflexivity. }
  destruct (@get_desc_returns_iff host_lp64 scope _ "1" st _ _
              ltac:(vm_compute; lia) E) as [Hiff _].
  exact Hiff.
Defined.

Lemma get_waveform_returns_iff_witness :
  let st := SDS1072CML_init (bench_scope true 0) in
  ∃ r, (@get_waveform host_long4 scope _ "1" st).1 = Ok r.
Proof.
  intros st.
  assert (E1 : @get_desc host_long4 scope _ "1" st
               = (Ok (Descriptor 4 0.5 0.25 0.125 (-0.5) 21),
                  (@get_desc host_long4 scope _ "1" st).2)).
  { apply run_ok. vm_compute. reflexivity. }
  assert (E2 : exchange_bytes ("C" +:+ "1" +:+ ":WF? DAT2")
                 (adapter (@get_desc host_long4 scope _ "1" st).2)
               = (replicate 21 x00 ++ [x80; x00; x7f; xff],
                  (exchange_bytes ("C" +:+ "1" +:+ ":WF? DAT2")
                     (adapter (@get_desc host_long4 scope _ "1" st).2)).2)).
  { vm_compute. reflexivity. }
  destruct (@get_waveform_returns_iff host_long4 scope _ "1" st _ _ _ _ E1 E2)
    as [Hiff _].
  apply Hiff. split; vm_compute; discriminate.
Defined.

Lemma get_triggerConfig_setup_error_witness :
  @get_triggerConfig host_lp64 unit silent_adapter (SDS1072CML_init tt)
  = (Raise IndexError,
     Driver tt ([] ++ [EvWrite "TRSE?"; EvRead]) (heap (SDS1072CML_init tt))
            (VStr "") None).
Proof.
  apply (@get_triggerConfig_setup_error host_lp64 unit silent_adapter
           (SDS1072CML_init tt) "" tt IndexError); reflexivity.
Defined.

Lemma get_triggerConfig_level_error_witness :
  let st := SDS1072CML_init
              (Scope true "EDGE" "C1" "TI" "100NS" "high" "POS" "AUTO" "DC" "Stop"
                     [] [] [] []) in
  (@get_triggerConfig host_lp64 scope _ st).1 = Raise ValueError
  ∧ heap (@get_triggerConfig host_lp64 scope _ st).2 !!! TriggerChannel_triggerConfDict
    = ({[ "type" := VStr "EDGE"; "source" := VStr "C1";
          "hold_type" := VStr "TI"; "hold_value1" := VStr "100NS" ]}
       : gmap string value).
Proof.
  intros st.
  assert (E1 : exchange "TRSE?" (adapter st)
               = ("TRSE EDGE,SR,C1,HT,TI,HV,100NS", (exchange "TRSE?" (adapter st)).2)).
  { vm_compute. reflexivity. }
  assert (E2 : trigger_setup_of_reply "TRSE EDGE,SR,C1,HT,TI,HV,100NS"
               = Ok {[ "type" := VStr "EDGE"; "source" := VStr "C1";
                       "hold_type" := VStr "TI"; "hold_value1" := VStr "100NS" ]}).
  { reflexivity. }
  assert (E3 : exchange "TRLV?" (exchange "TRSE?" (adapter st)).2
               = ("C1:TRLV high V",
                  (exchange "TRLV?" (exchange "TRSE?" (adapter st)).2).2)).
  { vm_compute. reflexivity. }
  assert (E4 : @trigger_level_get_process host_lp64 "C1:TRLV high V" = Raise ValueError).
  { reflexivity. }
  rewrite (@get_triggerConfig_level_error host_lp64 scope _ st _ _ _ _ _ _ E1 E2 E3 E4).
  split; [reflexivity|]. vm_compute. reflexivity.
Defined.

Lemma get_triggerConfig_overwrites_witness :
  let st := SDS1072CML_init (bench_scope true 0) in
  @cache_reports host_lp64
    (heap (@get_triggerConfig host_lp64 scope _ st).2 !!! self_triggerConfDict st)
    "TRSE EDGE,SR,C1,HT,TI,HV,100NS" "C1:TRLV 2.50E-01 V" "C1:TRSL POS" "TRMD AUTO"
    "C1:TRCP DC".
Proof.
  intros st.
  assert (E1 : trigger_exchanges (adapter st)
               = (("TRSE EDGE,SR,C1,HT,TI,HV,100NS", "C1:TRLV 2.50E-01 V",
                   "C1:TRSL POS", "TRMD AUTO", "C1:TRCP DC"),
                  (trigger_exchanges (adapter st)).2)).
  { vm_compute. reflexivity. }
  assert (E2 : trigger_setup_of_reply "TRSE EDGE,SR,C1,HT,TI,HV,100NS"
               = Ok {[ "type" := VStr "EDGE"; "source" := VStr "C1";
                       "hold_type" := VStr "TI"; "hold_value1" := VStr "100NS" ]}).
  { reflexivity. }
  assert (E3 : @trigger_level_get_process host_lp64 "C1:TRLV 2.50E-01 V"
               = Ok {[ "source" := VStr "C1"; "level" := VFloat 0.25 ]}).
  { reflexivity. }
  destruct (@get_triggerConfig_overwrites host_lp64 scope _ st _ _ _ _ _ _ _ _ E1 E2 E3)
    as [Hcache _].
  exact Hcache.
Defined.

Lemma set_triggerConfig_traffic_witness :
  let st := SDS1072CML_init (bench_scope true 0) in
  let kwargs := [("mode", VStr "NORM"); ("level", VFloat 0.5%float)] in
  ∃ evs,
    log (@set_triggerConfig host_lp64 scope _ kwargs st).2
    = log st ++ trigger_queries
      ++ (EvWrite <$> [":TRLV 5.00e-01V"; "TRMD NORM"]) ++ evs
    ∧ Forall query_event evs.
Proof.
  intros st kwargs.
  assert (E1 : @get_triggerConfig host_lp64 scope _ st
               = (Ok TriggerChannel_triggerConfDict,
                  (@get_triggerConfig host_lp64 scope _ st).2)).
  { apply run_ok. vm_compute. reflexivity. }
  assert (E2 : changed_keys
                 (heap (@get_triggerConfig host_lp64 scope _ st).2
                    !!! TriggerChannel_triggerConfDict) kwargs kwargs.*1
               = Ok ["mode"; "level"]).
  { vm_compute. reflexivity. }
  assert (E3 : Forall2
                 (λ key command,
                    @set_command host_lp64
                      (id_after kwargs (@get_triggerConfig host_lp64 scope _ st).2)
                      (apply_changed kwargs ["mode"; "level"]
                         (heap (@get_triggerConfig host_lp64 scope _ st).2
                            !!! TriggerChannel_triggerConfDict)) key = Ok command)
                 (processToChange ["mode"; "level"])
                 [":TRLV 5.00e-01V"; "TRMD NORM"]).
  { change (processToChange ["mode"; "level"]) with ["level"; "mode"].
    repeat constructor; vm_compute; reflexivity. }
  destruct (@set_triggerConfig_traffic host_lp64 scope _ kwargs st _ _ _ _ E1 E2 E3)
    as (_ & (evs & Hlog & Hevs & _) & _).
  exists evs. split; [exact Hlog|exact Hevs].
Defined.

Lemma set_triggerConfig_level_type_error_witness :
  let st := SDS1072CML_init (bench_scope true 0) in
  let kwargs := [("level", VStr "high")] in
  (@set_triggerConfig host_lp64 scope _ kwargs st).1 = Raise TypeError
  ∧ (heap (@set_triggerConfig host_lp64 scope _ kwargs st).2
       !!! TriggerChannel_triggerConfDict) !! "level" = Some (VStr "high").
Proof.
  intros st kwargs.
  assert (E1 : @get_triggerConfig host_lp64 scope _ st
               = (Ok TriggerChannel_triggerConfDict,
                  (@get_triggerConfig host_lp64 scope _ st).2)).
  { apply run_ok. vm_compute. reflexivity. }
  assert (E2 : changed_keys
                 (heap (@get_triggerConfig host_lp64 scope _ st).2
                    !!! TriggerChannel_triggerConfDict) kwargs kwargs.*1
               = Ok ["level"]).
  { vm_compute. reflexivity. }
  destruct (@set_triggerConfig_level_type_error host_lp64 scope _ kwargs st _ _ _
              (VStr "high") E1 E2) as (Hraise & Hcache & _).
  - apply list_elem_of_here.
  - reflexivity.
  - discriminate.
  - split; [exact Hraise|exact Hcache].
Defined.
